(** * Template-driven image compositor: a shallow embedding

    The development follows [src/server.js] (the Express deployment) and
    [src/api/render.js], [src/api/template.js] (the serverless deployment).

    - JavaScript values are an inductive type [JsVal]; numbers are exact
      rationals ([Q]); strings are sequences of code units below 256.
    - The request body is a JSON object: [data] is the finite map ([gmap])
      of its own keys, and a lookup [data[key]] that finds no own key goes
      on to [Object.prototype], as it does in the language.
    - An element of a template is an object whose fields hold values of the
      types the element model gives them.
    - The 2D drawing context is a record holding the drawing state and the
      list of paint operations issued so far, in paint order.
    - Everything the program obtains from its runtime (file and network
      loads, path arithmetic, number printing) is a field of [Runtime]. *)

From Stdlib Require Import ZArith QArith Qminmax Qround String Ascii List Bool Lia.
From Stdlib Require Import DecimalString Lqa.
From stdpp Require Import base option gmap strings list.

Import ListNotations.
Local Open Scope string_scope.
Local Open Scope list_scope.
#[local] Set Warnings "-register-all".

(** ** JavaScript values *)

Module Js.

Inductive JsVal : Type :=
| JUndefined
| JNull
| JBool (b : bool)
| JNum (q : Q)
| JStr (s : string)
| JArr (items : list JsVal)
| JObj (props : list (string * JsVal))
| JFun (name : string).    (* a function built into the engine *)

(** ToBoolean: what [!v], [v || d], [v && d] and [if (v)] test. *)
Definition truthy (v : JsVal) : bool :=
  match v with
  | JUndefined | JNull => false
  | JBool b => b
  | JNum q => negb (Qeq_bool q 0)
  | JStr s => negb (String.eqb s "")
  | JArr _ | JObj _ | JFun _ => true
  end.

(** [v ?? d] *)
Definition nullish (v d : JsVal) : JsVal :=
  match v with
  | JUndefined | JNull => d
  | _ => v
  end.

(** [Array.isArray(v)] *)
Definition isArray (v : JsVal) : bool :=
  match v with JArr _ => true | _ => false end.

(** Own-property lookup in a property list; the first binding of a key is
    the property. *)
Fixpoint lookupProp (props : list (string * JsVal)) (k : string) : JsVal :=
  match props with
  | [] => JUndefined
  | (k', v) :: rest => if String.eqb k' k then v else lookupProp rest k
  end.

(** [v.k] for a value [v] that is neither [null] nor [undefined]: objects
    answer with their property; the other values used here (booleans,
    numbers, strings, arrays) have no property of the names the program
    reads from them ([elements]). *)
Definition getProp (v : JsVal) (k : string) : JsVal :=
  match v with
  | JObj props => lookupProp props k
  | _ => JUndefined
  end.

(** The methods of [Object.prototype], by property name. An object made
    by [JSON.parse] has [Object.prototype] as its prototype and inherits
    them all. *)
Definition objectPrototypeMethods : list (string * JsVal) :=
  [ ("constructor", JFun "Object");
    ("__defineGetter__", JFun "__defineGetter__");
    ("__defineSetter__", JFun "__defineSetter__");
    ("hasOwnProperty", JFun "hasOwnProperty");
    ("__lookupGetter__", JFun "__lookupGetter__");
    ("__lookupSetter__", JFun "__lookupSetter__");
    ("isPrototypeOf", JFun "isPrototypeOf");
    ("propertyIsEnumerable", JFun "propertyIsEnumerable");
    ("toString", JFun "toString");
    ("valueOf", JFun "valueOf");
    ("toLocaleString", JFun "toLocaleString") ].

(** [Object.prototype[k]], read through an object that inherits from it:
    a method, or for [__proto__] the answer of the accessor, which is the
    prototype itself; [undefined] for every other name. *)
Definition inherited (k : string) : JsVal :=
  if String.eqb "__proto__" k then JObj objectPrototypeMethods
  else lookupProp objectPrototypeMethods k.

Section ToString.

(** Number::toString belongs to the engine. *)
Variable numberToString : Q -> string.

(** ToString, as applied by [String.prototype.replace] to the value a
    replacer function returns and by template literals. Array elements
    that are [null] or [undefined] print as the empty string. An object
    prints as [Object.prototype.toString] prints it, a built-in function
    as its source text; an object that hides [toString] behind a property
    of its own is none of the values considered (the data model gives the
    body scalar values). *)
Fixpoint toString (v : JsVal) : string :=
  match v with
  | JUndefined => "undefined"
  | JNull => "null"
  | JBool true => "true"
  | JBool false => "false"
  | JNum q => numberToString q
  | JStr s => s
  | JArr items =>
      (fix join (l : list JsVal) : string :=
         match l with
         | [] => ""
         | [x] => match x with
                  | JUndefined | JNull => ""
                  | _ => toString x
                  end
         | x :: rest =>
             (match x with
              | JUndefined | JNull => ""
              | _ => toString x
              end) +:+ "," +:+ join rest
         end) items
  | JObj _ => "[object Object]"
  | JFun name => "function " +:+ name +:+ "() { [native code] }"
  end.

End ToString.

End Js.

Import Js.

(** ** The regular expression of the placeholder syntax

    [/\{\{\s*(\w+)\s*\}\}/g] is a sequence of seven nodes, each a character
    class under a quantifier; the fourth is the capture group. The matcher
    is the backtracking matcher of the language: a quantified node first
    takes as many characters as it can and gives them back one at a time
    while the rest of the pattern fails. *)

Module Regex.

Inductive CharClass : Type :=
| Lit (c : ascii)          (* an escaped literal, [\{] or [\}] *)
| Space                    (* [\s] *)
| Word.                    (* [\w] *)

Definition isSpace (c : ascii) : bool :=
  let n := nat_of_ascii c in
  (((9 <=? n) && (n <=? 13)) || (n =? 32) || (n =? 160))%nat.

Definition isWord (c : ascii) : bool :=
  let n := nat_of_ascii c in
  (((48 <=? n) && (n <=? 57)) || ((65 <=? n) && (n <=? 90))
   || (n =? 95) || ((97 <=? n) && (n <=? 122)))%nat.

Definition classMatches (k : CharClass) (c : ascii) : bool :=
  match k with
  | Lit c' => Ascii.eqb c' c
  | Space => isSpace c
  | Word => isWord c
  end.

Inductive Quant : Type := Once | ZeroOrMore | OneOrMore.

Record Node : Type := mkNode
  { node_class : CharClass; node_quant : Quant; node_group : bool }.

Definition Pattern := list Node.

(** The outcome of a match attempt at one position: the text of the
    capture group and the input left after the match. *)
Definition MatchResult := option (string * string).

Definition capture (grp : bool) (cap : string) (c : ascii) : string :=
  if grp then cap +:+ String c "" else cap.

(** Greedy repetition of one class, then the continuation [cont]. *)
Fixpoint greedy (k : CharClass) (grp : bool)
    (cont : string -> string -> MatchResult) (s cap : string) : MatchResult :=
  match s with
  | String c s' =>
      if classMatches k c then
        match greedy k grp cont s' (capture grp cap c) with
        | Some r => Some r
        | None => cont s cap
        end
      else cont s cap
  | EmptyString => cont s cap
  end.

Fixpoint matchNodes (p : Pattern) (s cap : string) : MatchResult :=
  match p with
  | [] => Some (cap, s)
  | n :: p' =>
      let k := node_class n in
      let grp := node_group n in
      match node_quant n with
      | Once =>
          match s with
          | String c s' =>
              if classMatches k c then matchNodes p' s' (capture grp cap c)
              else None
          | EmptyString => None
          end
      | ZeroOrMore => greedy k grp (matchNodes p') s cap
      | OneOrMore =>
          match s with
          | String c s' =>
              if classMatches k c
              then greedy k grp (matchNodes p') s' (capture grp cap c)
              else None
          | EmptyString => None
          end
      end
  end.

(** A match attempt anchored at the head of [s]. *)
Definition matchAt (p : Pattern) (s : string) : MatchResult :=
  matchNodes p s "".

(** [s.replace(p, f)] for a global pattern [p] with one capture group and
    a replacer function [f] of the captured text: the input is scanned left
    to right; at a match the replacement is emitted and scanning resumes
    after the match (one character further when the match is empty);
    anywhere else the character is copied. [fuel] bounds the number of
    steps; [String.length s] is always enough. *)
Fixpoint replaceLoop (fuel : nat) (p : Pattern) (f : string -> string)
    (s : string) : string :=
  match fuel with
  | O => s
  | S fuel' =>
      match s with
      | EmptyString => match matchAt p s with
                       | Some (cap, _) => f cap
                       | None => ""
                       end
      | String c s' =>
          match matchAt p s with
          | Some (cap, rest) =>
              if (String.length rest <? String.length s)%nat
              then f cap +:+ replaceLoop fuel' p f rest
              else f cap +:+ String c (replaceLoop fuel' p f s')
          | None => String c (replaceLoop fuel' p f s')
          end
      end
  end.

Definition replaceAll (p : Pattern) (f : string -> string) (s : string)
    : string :=
  replaceLoop (S (String.length s)) p f s.

Definition lit (c : ascii) : Node := mkNode (Lit c) Once false.

(** [/\{\{\s*(\w+)\s*\}\}/g] *)
Definition placeholderRegex : Pattern :=
  [ lit "{"; lit "{";
    mkNode Space ZeroOrMore false;
    mkNode Word OneOrMore true;
    mkNode Space ZeroOrMore false;
    lit "}"; lit "}" ].

End Regex.

(** ** Placeholder resolver *)

Section Resolver.

Variable numberToString : Q -> string.

(** [data[key]] on the request body: the value of the body's own key, or
    else what the body inherits under that name. *)
Definition dataGet (data : gmap string JsVal) (key : string) : JsVal :=
  match data !! key with
  | Some v => v
  | None => inherited key
  end.

(** The replacer [(_, key) => data[key] ?? ""], with the coercion to a
    string that [replace] applies to its result. *)
Definition replacer (data : gmap string JsVal) (key : string) : string :=
  toString numberToString (nullish (dataGet data key) (JStr "")).

(** [resolvePlaceholders(value, data)], src/server.js lines 52-57. *)
Definition resolvePlaceholders (value : JsVal) (data : gmap string JsVal)
    : JsVal :=
  match value with
  | JStr s =>
      JStr (Regex.replaceAll Regex.placeholderRegex (replacer data) s)
  | _ => value                      (* [typeof value !== "string"] *)
  end.

End Resolver.

(** ** Outcomes of code that may throw *)

Inductive Outcome (A : Type) : Type :=
| Returned (a : A)
| Thrown (message : string).

Arguments Returned {A} a.
Arguments Thrown {A} message.

Definition bind {A B : Type} (m : Outcome A) (k : A -> Outcome B)
    : Outcome B :=
  match m with
  | Returned a => k a
  | Thrown e => Thrown e
  end.

Notation "'let*' x ':=' m 'in' k" := (bind m (fun x => k))
  (at level 10, x name, m at level 100, k at level 200, only parsing).

(** ** The 2D drawing context *)

Module Canvas.

(** Angles are counted in multiples of [Math.PI]. *)
Inductive PathSeg : Type :=
| MoveTo (x y : Q)
| LineTo (x y : Q)
| QuadraticCurveTo (cpx cpy x y : Q)
| Arc (cx cy r startAngle endAngle : Q)
| ClosePath.

Definition Path := list PathSeg.

(** Decoded pixel data, as [loadImage] returns it. *)
Record Image : Type := mkImage
  { img_pixels : string; img_width : Z; img_height : Z }.

(** One paint operation, with the drawing state it was issued under. A
    canvas can itself be the source of [drawImage]. *)
Inductive PaintOp : Type :=
| OpFillRect (x y w h : Q) (style : JsVal) (clips : list Path)
| OpFill (path : Path) (style : JsVal) (clips : list Path)
| OpDrawImage (src : Drawable) (x y w h : Q) (clips : list Path)
| OpFillText (text : JsVal) (x y : Q) (font : string) (style : JsVal)
    (align : string) (clips : list Path)
with Drawable : Type :=
| DImage (i : Image)
| DCanvas (width height : Z) (ops : list PaintOp).

(** [src.width], [src.height] *)
Definition drawableWidth (d : Drawable) : Z :=
  match d with DImage i => img_width i | DCanvas w _ _ => w end.

Definition drawableHeight (d : Drawable) : Z :=
  match d with DImage i => img_height i | DCanvas _ h _ => h end.

(** What [save] pushes and [restore] pops. The current path is not part
    of it. *)
Record DrawState : Type := mkDrawState
  { ds_fillStyle : JsVal; ds_font : string; ds_textAlign : string;
    ds_clips : list Path }.

(** A canvas with its context. The setters of [fillStyle], [font] and
    [textAlign] are plain assignments: how the backend reads a colour or a
    font string is outside the embedding. *)
Record Ctx : Type := mkCtx
  { width : Z; height : Z;
    path : Path;
    fillStyle : JsVal; font : string; textAlign : string;
    clips : list Path;
    saved : list DrawState;
    ops : list PaintOp }.

(** [createCanvas(w, h).getContext("2d")] *)
Definition createCanvas (w h : Z) : Ctx :=
  {| width := w; height := h; path := [];
     fillStyle := JStr "#000000"; font := "10px sans-serif";
     textAlign := "start"; clips := []; saved := []; ops := [] |}.

Definition setPath (c : Ctx) (p : Path) : Ctx :=
  {| width := width c; height := height c; path := p;
     fillStyle := fillStyle c; font := font c; textAlign := textAlign c;
     clips := clips c; saved := saved c; ops := ops c |}.

Definition emit (c : Ctx) (op : PaintOp) : Ctx :=
  {| width := width c; height := height c; path := path c;
     fillStyle := fillStyle c; font := font c; textAlign := textAlign c;
     clips := clips c; saved := saved c; ops := ops c ++ [op] |}.

Definition beginPath (c : Ctx) : Ctx := setPath c [].
Definition moveTo (x y : Q) (c : Ctx) : Ctx := setPath c (path c ++ [MoveTo x y]).
Definition lineTo (x y : Q) (c : Ctx) : Ctx := setPath c (path c ++ [LineTo x y]).
Definition quadraticCurveTo (cpx cpy x y : Q) (c : Ctx) : Ctx :=
  setPath c (path c ++ [QuadraticCurveTo cpx cpy x y]).
Definition arc (cx cy r a0 a1 : Q) (c : Ctx) : Ctx :=
  setPath c (path c ++ [Arc cx cy r a0 a1]).
Definition closePath (c : Ctx) : Ctx := setPath c (path c ++ [ClosePath]).

Definition setFillStyle (v : JsVal) (c : Ctx) : Ctx :=
  {| width := width c; height := height c; path := path c;
     fillStyle := v; font := font c; textAlign := textAlign c;
     clips := clips c; saved := saved c; ops := ops c |}.

Definition setFont (f : string) (c : Ctx) : Ctx :=
  {| width := width c; height := height c; path := path c;
     fillStyle := fillStyle c; font := f; textAlign := textAlign c;
     clips := clips c; saved := saved c; ops := ops c |}.

Definition setTextAlign (a : string) (c : Ctx) : Ctx :=
  {| width := width c; height := height c; path := path c;
     fillStyle := fillStyle c; font := font c; textAlign := a;
     clips := clips c; saved := saved c; ops := ops c |}.

Definition save (c : Ctx) : Ctx :=
  {| width := width c; height := height c; path := path c;
     fillStyle := fillStyle c; font := font c; textAlign := textAlign c;
     clips := clips c;
     saved := mkDrawState (fillStyle c) (font c) (textAlign c) (clips c)
              :: saved c;
     ops := ops c |}.

Definition restore (c : Ctx) : Ctx :=
  match saved c with
  | [] => c
  | st :: rest =>
      {| width := width c; height := height c; path := path c;
         fillStyle := ds_fillStyle st; font := ds_font st;
         textAlign := ds_textAlign st; clips := ds_clips st;
         saved := rest; ops := ops c |}
  end.

(** [clip()] intersects the clipping region with the current path. *)
Definition clip (c : Ctx) : Ctx :=
  {| width := width c; height := height c; path := path c;
     fillStyle := fillStyle c; font := font c; textAlign := textAlign c;
     clips := path c :: clips c; saved := saved c; ops := ops c |}.

Definition fill (c : Ctx) : Ctx :=
  emit c (OpFill (path c) (fillStyle c) (clips c)).

Definition fillRect (x y w h : Q) (c : Ctx) : Ctx :=
  emit c (OpFillRect x y w h (fillStyle c) (clips c)).

Definition drawImage (src : Drawable) (x y w h : Q) (c : Ctx) : Ctx :=
  emit c (OpDrawImage src x y w h (clips c)).

Definition fillText (text : JsVal) (x y : Q) (c : Ctx) : Ctx :=
  emit c (OpFillText text x y (font c) (fillStyle c) (textAlign c) (clips c)).

(** The finished picture: what [toBuffer("image/png")] encodes. *)
Record Surface : Type := mkSurface
  { s_width : Z; s_height : Z; s_ops : list PaintOp }.

Definition surfaceOf (c : Ctx) : Surface :=
  mkSurface (width c) (height c) (ops c).

End Canvas.

Import Canvas.

(** ** Templates *)

(** [border] of an image element. *)
Record Border : Type := mkBorder
  { border_width : option Q; border_color : option string }.

(** One entry of [elements]: an object, with the field types of the data
    model; a field that is absent (or [null]) is [None]. *)
Record Element : Type := mkElement
  { e_type : option string;
    e_name : option string;
    e_x : option Q; e_y : option Q;
    e_width : option Q; e_height : option Q;
    e_source : option string;
    e_clip : option string;
    e_border : option Border;
    e_radius : option Q;
    e_color : option string;
    e_fontSize : option Q;
    e_text : option string;
    e_align : option string;
    e_font : option string }.

(** The template definition. A definition without [elements] has no
    [elements.length] and is rendered like one with the empty sequence. *)
Record Template : Type := mkTemplate
  { background : option string; elements : list Element }.

(** ** Operators on typed fields *)

(** [o ?? d] *)
Definition optOr {A : Type} (o : option A) (d : A) : A :=
  match o with Some a => a | None => d end.

(** [s || d] on a string: the empty string is falsy. *)
Definition strOrElse (s d : string) : string :=
  if String.eqb s "" then d else s.

(** [o || d] on a string field that may be absent. *)
Definition fieldOrElse (o : option string) (d : string) : string :=
  match o with Some s => strOrElse s d | None => d end.

(** [n || d] on a number: zero is falsy. *)
Definition numOrElse (n d : Q) : Q := if Qeq_bool n 0 then d else n.

(** Truthiness of a field that may be absent. *)
Definition truthyStr (o : option string) : bool :=
  match o with Some s => negb (String.eqb s "") | None => false end.

Definition truthyNum (o : option Q) : bool :=
  match o with Some q => negb (Qeq_bool q 0) | None => false end.

(** [s.toLowerCase()] on code units below 256. *)
Definition lowerChar (c : ascii) : ascii :=
  let n := nat_of_ascii c in
  if (((65 <=? n) && (n <=? 90))
      || ((192 <=? n) && (n <=? 222) && negb (n =? 215)))%nat
  then ascii_of_nat (n + 32) else c.

Fixpoint toLowerCase (s : string) : string :=
  match s with
  | EmptyString => EmptyString
  | String c s' => String (lowerChar c) (toLowerCase s')
  end.

(** [s.startsWith(p)] *)
Definition startsWith (s p : string) : bool := String.prefix p s.

(** ** The runtime *)

(** The argument of [loadImage]: a path, or the bytes of a response. *)
Inductive ImageInput : Type :=
| FromPath (p : string)
| FromBuffer (bytes : string).

(** What [fetch] resolves to, with the bytes of [arrayBuffer()]. *)
Record Response : Type := mkResponse
  { resp_ok : bool; resp_status : Q; resp_body : string }.

(** What is written to a file. *)
Inductive FileContent : Type :=
| PngOf (s : Surface)           (* [canvas.toBuffer("image/png")] *)
| JsonOf (v : JsVal).           (* [JSON.stringify(v, null, 2)] *)

Record Runtime : Type := mkRuntime
  { numberToString : Q -> string;
    cwd : string;                               (* [process.cwd()] *)
    dirname : string;                           (* [__dirname] *)
    isAbsolute : string -> bool;                (* [path.isAbsolute] *)
    join : list string -> string;               (* [path.join] *)
    loadImage : ImageInput -> Outcome Image;
    fetch : string -> Outcome Response;
    writeFile : string -> FileContent -> Outcome unit;
    randomUUID : nat -> string                  (* the n-th identifier drawn *)
  }.

(** [resolvePlaceholders] on a value known to be a string. *)
Definition resolveString (rt : Runtime) (s : string)
    (data : gmap string JsVal) : string :=
  Regex.replaceAll Regex.placeholderRegex (replacer (numberToString rt) data) s.

(** ** Geometry *)

(** [drawRoundedRect], src/server.js lines 59-72. *)
Definition cornerRadius (w h radius : Q) : Q :=
  Qmax 0 (Qmin (numOrElse radius 0) (Qmin w h / 2)).

Definition drawRoundedRect (ctx : Ctx) (x y w h radius : Q) : Ctx :=
  let r := cornerRadius w h radius in
  let ctx := beginPath ctx in
  let ctx := moveTo (x + r) y ctx in
  let ctx := lineTo (x + w - r) y ctx in
  let ctx := quadraticCurveTo (x + w) y (x + w) (y + r) ctx in
  let ctx := lineTo (x + w) (y + h - r) ctx in
  let ctx := quadraticCurveTo (x + w) (y + h) (x + w - r) (y + h) ctx in
  let ctx := lineTo (x + r) (y + h) ctx in
  let ctx := quadraticCurveTo x (y + h) x (y + h - r) ctx in
  let ctx := lineTo x (y + r) ctx in
  let ctx := quadraticCurveTo x y (x + r) y ctx in
  closePath ctx.

(** ** Surface sizing and background paint *)

(** Lines 139-145 of src/server.js: [bgImage.width || 1080], the canvas
    of that size, the background drawn over all of it. *)
Definition paintBackground (bgImage : Drawable) : Ctx :=
  let width :=
    if (drawableWidth bgImage =? 0)%Z then 1080%Z
    else drawableWidth bgImage in
  let height :=
    if (drawableHeight bgImage =? 0)%Z then 1080%Z
    else drawableHeight bgImage in
  let ctx := createCanvas width height in
  drawImage bgImage 0 0 (inject_Z width) (inject_Z height) ctx.

(** ** The element pass

    The code of the pass is the same in [src/server.js] (lines 148-228) and
    [src/api/render.js] (lines 128-214), up to the directory a relative
    path is joined to: [process.cwd()] in the first, [__dirname/..] in the
    second. *)

Definition brandFont : string := "DB-Adman-X".

Section ElementPass.

Variable rt : Runtime.
Variable base : list string.
Variable data : gmap string JsVal.            (* [req.body] *)

(** [path.isAbsolute(p) ? p : path.join(base, p)] *)
Definition localPath (p : string) : string :=
  if isAbsolute rt p then p else join rt (base ++ [p]).

(** Lines 164-179 of src/server.js: the decoded pixels of an image
    element, or the error thrown on the way. *)
Definition acquireImage (name source : string) : Outcome Image :=
  if startsWith source "http://" || startsWith source "https://" then
    let* resp := fetch rt source in
    if negb (resp_ok resp) then
      Thrown ("Failed to fetch image (" +:+ name +:+ "): "
              +:+ numberToString rt (resp_status resp))
    else loadImage rt (FromBuffer (resp_body resp))
  else loadImage rt (FromPath (localPath source)).

(** [element.clip === kind] *)
Definition clipIs (element : Element) (kind : string) : bool :=
  match e_clip element with
  | Some c => String.eqb c kind
  | None => false
  end.

Definition paintImage (element : Element) (ctx : Ctx) : Outcome Ctx :=
  let name := fieldOrElse (e_name element) "image" in
  let x := optOr (e_x element) 0%Q in
  let y := optOr (e_y element) 0%Q in
  let w := optOr (e_width element) 0%Q in
  let h := optOr (e_height element) 0%Q in
  let sourceRaw := optOr (e_source element) "" in
  let source := resolveString rt sourceRaw data in
  let border := e_border element in
  let hasCircleClip := clipIs element "circle" in
  let* imageObj := acquireImage name source in
  let ctx :=
    match border with
    | Some b =>
        if hasCircleClip && truthyNum (border_width b)
           && truthyStr (border_color b)
        then
          let ctx := beginPath ctx in
          let ctx :=
            arc (x + w / 2) (y + h / 2)
                (Qmin w h / 2 + optOr (border_width b) 0%Q / 2) 0 2 ctx in
          let ctx :=
            setFillStyle
              (JStr (strOrElse
                       (resolveString rt (optOr (border_color b) "") data)
                       "#000000")) ctx in
          fill ctx
        else ctx
    | None => ctx
    end in
  let ctx := save ctx in
  let ctx :=
    if hasCircleClip then
      let ctx := beginPath ctx in
      let ctx := arc (x + w / 2) (y + h / 2) (Qmin w h / 2) 0 2 ctx in
      let ctx := closePath ctx in
      clip ctx
    else ctx in
  let ctx := drawImage (DImage imageObj) x y w h ctx in
  Returned (restore ctx).

Definition paintRectangle (element : Element) (ctx : Ctx) : Outcome Ctx :=
  let x := optOr (e_x element) 0%Q in
  let y := optOr (e_y element) 0%Q in
  let w := optOr (e_width element) 0%Q in
  let h := optOr (e_height element) 0%Q in
  let radius := optOr (e_radius element) 0%Q in
  let color := resolveString rt (optOr (e_color element) "#000000") data in
  let ctx := drawRoundedRect ctx x y w h radius in
  let ctx := setFillStyle (JStr color) ctx in
  Returned (fill ctx).

Definition paintText (element : Element) (ctx : Ctx) : Outcome Ctx :=
  let x := optOr (e_x element) 0%Q in
  let y := optOr (e_y element) 0%Q in
  let fontSize := optOr (e_fontSize element) 24%Q in
  let color := resolveString rt (optOr (e_color element) "#000000") data in
  let text := resolveString rt (optOr (e_text element) "") data in
  let align := toLowerCase (fieldOrElse (e_align element) "left") in
  let fontFamilyRaw := fieldOrElse (e_font element) brandFont in
  let fontFamily :=
    strOrElse (resolveString rt fontFamilyRaw data) brandFont in
  let ctx :=
    setFont (numberToString rt fontSize +:+ "px " +:+ fontFamily) ctx in
  let ctx := setFillStyle (JStr color) ctx in
  let ctx :=
    setTextAlign
      (if existsb (String.eqb align) ["left"; "right"; "center"]
       then align else "left") ctx in
  Returned (fillText (JStr text) x y ctx).

Definition typeIs (element : Element) (t : string) : bool :=
  match e_type element with
  | Some s => String.eqb s t
  | None => false
  end.

(** The body of the loop: one branch per known type, nothing otherwise. *)
Definition paintElement (element : Element) (ctx : Ctx) : Outcome Ctx :=
  if typeIs element "image" then paintImage element ctx
  else if typeIs element "rectangle" then paintRectangle element ctx
  else if typeIs element "text" then paintText element ctx
  else Returned ctx.

(** [for (const element of elements) { ... }] *)
Fixpoint paintElements (es : list Element) (ctx : Ctx) : Outcome Ctx :=
  match es with
  | [] => Returned ctx
  | element :: rest =>
      let* ctx' := paintElement element ctx in paintElements rest ctx'
  end.

(** Surface sizing, background paint and element pass: lines 139-228 of
    src/server.js, 119-214 of src/api/render.js. *)
Definition composite (bgImage : Drawable) (es : list Element)
    : Outcome Ctx :=
  paintElements es (paintBackground bgImage).

(** The [try] block around the load of the template's background: the
    image, or [null] when there is no background or the load throws. *)
Definition templateBackground (templateDefinition : option Template)
    : option Image :=
  match templateDefinition with
  | Some t =>
      if truthyStr (background t) then
        let bgTemplatePath :=
          resolveString rt (optOr (background t) "") data in
        match loadImage rt (FromPath (localPath bgTemplatePath)) with
        | Returned img => Some img
        | Thrown _ => None
        end
      else None
  | None => None
  end.

(** [path.join(process.cwd(), "assets")] *)
Definition assetsDir : string := join rt [cwd rt; "assets"].

(** [path.join(assetsDir, "background.png")] *)
Definition fallbackBg : string := join rt [assetsDir; "background.png"].

End ElementPass.

(** ** Replies of the HTTP handlers *)

Inductive ReplyBody : Type :=
| RUrl (url : string)                (* [{ url }] *)
| RImage (png : FileContent)         (* [{ image: dataUrl }], base64 of the PNG *)
| RError (error : string)            (* [{ error }] *)
| RSuccess (message : string)        (* [{ success: true, message }] *)
| RTemplate (t : JsVal)
| REmpty.

Record Reply : Type := mkReply { status : nat; body : ReplyBody }.

(** A reply together with the files written while producing it. *)
Definition Served : Type := Reply * list (string * FileContent).

(** ** src/server.js *)

Module Server.

Section Render.

Variable rt : Runtime.
Variable templateDefinition : option Template.
Variable data : gmap string JsVal.

(** Lines 117-137: the template's background, else the fallback asset;
    the load of the fallback is not guarded. *)
Definition loadBackground : Outcome Drawable :=
  match templateBackground rt [cwd rt] data templateDefinition with
  | Some img => Returned (DImage img)
  | None =>
      let* img := loadImage rt (FromPath (fallbackBg rt)) in
      Returned (DImage img)
  end.

(** [path.join(__dirname, "public")] *)
Definition publicDir : string := join rt [dirname rt; "public"].

(** Lines 117-231: everything inside [try] up to the encoding. *)
Definition renderSurface : Outcome Surface :=
  let* bgImage := loadBackground in
  let* ctx :=
    composite rt [cwd rt] data bgImage
      (match templateDefinition with
       | Some t => elements t
       | None => []
       end) in
  Returned (surfaceOf ctx).

(** [POST /render], lines 110-254. *)
Definition render : Served :=
  match renderSurface with
  | Thrown _ => (mkReply 500 (RError "Image generation failed"), [])
  | Returned surface =>
      let buffer := PngOf surface in
      let filename := randomUUID rt 1 +:+ ".png" in
      let filePath := join rt [publicDir; filename] in
      match writeFile rt filePath buffer with
      | Thrown _ => (mkReply 500 (RError "Failed to save image"), [])
      | Returned _ =>
          (mkReply 200
             (RUrl ("https://ranking-celebration-image-render-api.onrender.com/i/"
                    +:+ filename)),
           [(filePath, buffer)])
      end
  end.

End Render.

End Server.

(** ** src/api/render.js *)

Module Api.

Section Handler.

Variable rt : Runtime.
Variable data : gmap string JsVal.

(** Lines 110-115: the canvas made when no background image loads. *)
Definition defaultCanvas : Drawable :=
  let defaultCtx := createCanvas 1080 1080 in
  let defaultCtx := setFillStyle (JStr "#ffffff") defaultCtx in
  let defaultCtx := fillRect 0 0 1080 1080 defaultCtx in
  DCanvas (width defaultCtx) (height defaultCtx) (ops defaultCtx).

(** Lines 87-117: template background, fallback asset, default canvas. *)
Definition loadBackground (templateDefinition : option Template)
    : Drawable :=
  match templateBackground rt [dirname rt; ".."] data templateDefinition with
  | Some img => DImage img
  | None =>
      match loadImage rt (FromPath (fallbackBg rt)) with
      | Returned img => DImage img
      | Thrown _ => defaultCanvas
      end
  end.

Definition renderSurface (t : Template) : Outcome Surface :=
  let bgImage := loadBackground (Some t) in
  let* ctx := composite rt [dirname rt; ".."] data bgImage (elements t) in
  Returned (surfaceOf ctx).

(** The exported handler, on a request whose body is a JSON object
    ([data]). [loaded] is the module's [templateDefinition]; [stored] is
    what [loadTemplateDefinition] reads when it is called. *)
Definition handler (method : string) (loaded stored : option Template)
    : Served :=
  if String.eqb method "OPTIONS" then (mkReply 200 REmpty, [])
  else if negb (String.eqb method "POST")
  then (mkReply 405 (RError "Method not allowed"), [])
  else
    match (match loaded with Some t => Some t | None => stored end) with
    | None => (mkReply 500 (RError "Template not loaded"), [])
    | Some t =>
        match renderSurface t with
        | Thrown _ => (mkReply 500 (RError "Image generation failed"), [])
        | Returned surface => (mkReply 200 (RImage (PngOf surface)), [])
        end
    end.

End Handler.

End Api.

(** ** Template storage: [PUT /api/template]

    src/server.js lines 83-103 and the [PUT] branch of src/api/template.js
    (lines 44-63) are the same code. The stored definition is the module
    variable [templateDefinition], [null] while nothing is loaded. *)

Module TemplateStore.

Section Put.

Variable rt : Runtime.

Definition templatePath : string :=
  join rt [cwd rt; "templates"; "template.json"].

(** [!newTemplate || !newTemplate.elements ||
     !Array.isArray(newTemplate.elements)] *)
Definition rejected (newTemplate : JsVal) : bool :=
  negb (truthy newTemplate)
  || negb (truthy (getProp newTemplate "elements"))
  || negb (isArray (getProp newTemplate "elements")).

(** The reply, the files written, and the stored definition afterwards. *)
Definition put (templateDefinition newTemplate : JsVal) : Served * JsVal :=
  if rejected newTemplate then
    ((mkReply 400 (RError "Invalid template format"), []),
     templateDefinition)
  else
    match writeFile rt templatePath (JsonOf newTemplate) with
    | Thrown _ =>
        ((mkReply 500 (RError "Failed to update template"), []),
         templateDefinition)
    | Returned _ =>
        ((mkReply 200 (RSuccess "Template updated successfully"),
          [(templatePath, JsonOf newTemplate)]),
         newTemplate)
    end.

(** [GET /api/template] *)
Definition get (templateDefinition : JsVal) : Reply :=
  if negb (truthy templateDefinition)
  then mkReply 500 (RError "Template not loaded")
  else mkReply 200 (RTemplate templateDefinition).

(** The handler exported by src/api/template.js; [stored] is what
    [loadTemplateDefinition] reads when [GET] calls it. *)
Definition handler (method : string) (templateDefinition stored body : JsVal)
    : Served * JsVal :=
  if String.eqb method "OPTIONS"
  then ((mkReply 200 REmpty, []), templateDefinition)
  else if String.eqb method "GET" then
    let templateDefinition :=
      if negb (truthy templateDefinition) then stored
      else templateDefinition in
    ((get templateDefinition, []), templateDefinition)
  else if String.eqb method "PUT" then put templateDefinition body
  else ((mkReply 405 (RError "Method not allowed"), []), templateDefinition).

End Put.

End TemplateStore.

(** ** Reading pixels off the paint operations

    Which points a path or a run of text covers is the rasterizer's
    business; it is a parameter here. The pixel at a point shows the last
    operation that covers it. *)

Inductive Layer : Type :=
| Unpainted
| FilledWith (style : JsVal)
| PixelOf (src : Drawable).

Section Raster.

Variable inPath : Path -> Q * Q -> bool.
Variable inGlyphs : JsVal -> string -> string -> Q * Q -> Q * Q -> bool.

Definition inBox (x y w h : Q) (p : Q * Q) : bool :=
  Qle_bool (Qmin x (x + w)) (fst p) && negb (Qle_bool (Qmax x (x + w)) (fst p))
  && Qle_bool (Qmin y (y + h)) (snd p) && negb (Qle_bool (Qmax y (y + h)) (snd p)).

Definition inClips (cs : list Path) (p : Q * Q) : bool :=
  forallb (fun c => inPath c p) cs.

Definition covers (op : PaintOp) (p : Q * Q) : bool :=
  match op with
  | OpFillRect x y w h _ cs => inBox x y w h p && inClips cs p
  | OpFill path _ cs => inPath path p && inClips cs p
  | OpDrawImage _ x y w h cs => inBox x y w h p && inClips cs p
  | OpFillText text x y font _ align cs =>
      inGlyphs text font align (x, y) p && inClips cs p
  end.

Definition layerOf (op : PaintOp) : Layer :=
  match op with
  | OpFillRect _ _ _ _ style _ => FilledWith style
  | OpFill _ style _ => FilledWith style
  | OpDrawImage src _ _ _ _ _ => PixelOf src
  | OpFillText _ _ _ _ style _ _ => FilledWith style
  end.

(** Painter's algorithm: the operations are applied in list order. *)
Definition pixelAt (ops : list PaintOp) (p : Q * Q) : Layer :=
  fold_left (fun acc op => if covers op p then layerOf op else acc)
    ops Unpainted.

End Raster.

(** * Specification-side definitions *)

(** ** The placeholder syntax, as the specification words it

    A token is ['{{'], optional whitespace, an identifier made of word
    characters, optional whitespace, ['}}']. *)

Fixpoint allChars (P : ascii -> bool) (s : string) : bool :=
  match s with
  | EmptyString => true
  | String c s' => P c && allChars P s'
  end.

(** [Token s id rest]: [s] starts with a token naming [id], followed by
    [rest]. *)
Inductive Token : string -> string -> string -> Prop :=
| Token_intro (ws1 id ws2 rest : string) :
    allChars Regex.isSpace ws1 = true ->
    allChars Regex.isWord id = true ->
    id <> "" ->
    allChars Regex.isSpace ws2 = true ->
    Token ("{{" +:+ ws1 +:+ id +:+ ws2 +:+ "}}" +:+ rest) id rest.

(** The value the specification gives a token: the string form of the
    mapping's value for the key, the empty string when the key is absent or
    its value is [null] or [undefined]. *)
Definition statedValue (numberToString : Q -> string)
    (data : gmap string JsVal) (id : string) : string :=
  match data !! id with
  | None | Some JUndefined | Some JNull => ""
  | Some v => toString numberToString v
  end.

(** The names under which every object inherits a member. *)
Definition inheritedNames : list string :=
  [ "constructor"; "__defineGetter__"; "__defineSetter__"; "hasOwnProperty";
    "__lookupGetter__"; "__lookupSetter__"; "isPrototypeOf";
    "propertyIsEnumerable"; "toString"; "valueOf"; "toLocaleString";
    "__proto__" ].

Definition isInheritedName (id : string) : bool :=
  existsb (fun name => String.eqb name id) inheritedNames.

(** The value of a token, amended: as stated for a key the mapping holds;
    for a key it does not hold, the string form of the inherited member
    when the key is the name of one, the empty string otherwise. *)
Definition tokenValue (numberToString : Q -> string)
    (data : gmap string JsVal) (id : string) : string :=
  match data !! id with
  | Some JUndefined | Some JNull => ""
  | Some v => toString numberToString v
  | None =>
      if isInheritedName id then toString numberToString (inherited id)
      else ""
  end.

(** [Resolves valueOf s out]: reading [s] from the left, every token is
    replaced by the value of its identifier, the text after it being
    resolved on its own; a character that starts no token stays. *)
Inductive Resolves (valueOf : string -> string) : string -> string -> Prop :=
| Resolves_end : Resolves valueOf "" ""
| Resolves_token (s id rest out : string) :
    Token s id rest ->
    Resolves valueOf rest out ->
    Resolves valueOf s (valueOf id +:+ out)
| Resolves_char (c : ascii) (s out : string) :
    (forall id rest, ~ Token (String c s) id rest) ->
    Resolves valueOf s out ->
    Resolves valueOf (String c s) (String c out).

(** ** Clamping, as the specification words it *)

(** [v] clamped to the interval [[lo, hi]]: brought down to [hi] when it
    is above, then up to [lo] when it is below. *)
Definition clamp (lo hi v : Q) : Q := Qmax lo (Qmin v hi).

(** The path of a plain rectangle: the four corners, each corner curve
    collapsed onto its corner. *)
Definition plainRectangle (x y w h : Q) : Path :=
  [ MoveTo x y; LineTo (x + w) y;
    QuadraticCurveTo (x + w) y (x + w) y;
    LineTo (x + w) (y + h);
    QuadraticCurveTo (x + w) (y + h) (x + w) (y + h);
    LineTo x (y + h);
    QuadraticCurveTo x (y + h) x (y + h);
    LineTo x y;
    QuadraticCurveTo x y x y;
    ClosePath ].

(** The outline of the box at [(x, y)] of width [w] and height [h] with
    its corners rounded by [r]: every side is shortened by [r] at both
    ends, and every corner is a curve bent towards the corner point. *)
Definition roundedOutline (x y w h r : Q) : Path :=
  [ MoveTo (x + r) y;
    LineTo (x + w - r) y;
    QuadraticCurveTo (x + w) y (x + w) (y + r);
    LineTo (x + w) (y + h - r);
    QuadraticCurveTo (x + w) (y + h) (x + w - r) (y + h);
    LineTo (x + r) (y + h);
    QuadraticCurveTo x (y + h) x (y + h - r);
    LineTo x (y + r);
    QuadraticCurveTo x y (x + r) y;
    ClosePath ].

(** Two path segments, two paths, with the same coordinates as numbers. *)
Definition sameSeg (a b : PathSeg) : Prop :=
  match a, b with
  | MoveTo x y, MoveTo x' y' => x == x' /\ y == y'
  | LineTo x y, LineTo x' y' => x == x' /\ y == y'
  | QuadraticCurveTo cx cy x y, QuadraticCurveTo cx' cy' x' y' =>
      cx == cx' /\ cy == cy' /\ x == x' /\ y == y'
  | Arc cx cy r a0 a1, Arc cx' cy' r' a0' a1' =>
      cx == cx' /\ cy == cy' /\ r == r' /\ a0 == a0' /\ a1 == a1'
  | ClosePath, ClosePath => True
  | _, _ => False
  end.

Definition samePath (p q : Path) : Prop := Forall2 sameSeg p q.

(** ** Errors that identify an element *)



(** ** A concrete runtime for the examples *)

(** Number::toString on integers. *)
Definition integerToString (q : Q) : string :=
  NilEmpty.string_of_int (Z.to_int (Qfloor q)).

Fixpoint joinPaths (parts : list string) : string :=
  match parts with
  | [] => "."
  | [p] => p
  | p :: rest => p +:+ "/" +:+ joinPaths rest
  end.

Definition sampleBackground : Image := mkImage "background.png" 900 900.
Definition samplePhoto : Image := mkImage "photo.png" 300 200.

(** A file system that holds the fallback background, one photo and one
    file that is no image; no network host answers with success. *)
Definition sampleRuntime : Runtime :=
  {| numberToString := integerToString;
     cwd := "/srv";
     dirname := "/srv";
     isAbsolute := fun p => String.prefix "/" p;
     join := joinPaths;
     loadImage := fun input =>
       match input with
       | FromPath p =>
           if String.eqb p "/srv/assets/background.png"
           then Returned sampleBackground
           else if String.eqb p "/srv/assets/photo.png"
           then Returned samplePhoto
           else if String.eqb p "/srv/assets/broken.png"
           then Thrown "Unsupported image type"
           else Thrown ("ENOENT: no such file or directory, open '" +:+ p +:+ "'")
       | FromBuffer _ => Thrown "Unsupported image type"
       end;
     fetch := fun url => Returned (mkResponse false 404 "Not Found");
     writeFile := fun _ _ => Returned tt;
     randomUUID := fun n => "id" +:+ integerToString (inject_Z (Z.of_nat n)) |}.

(** The same machine with an empty [assets] directory. *)
Definition bareRuntime : Runtime :=
  {| numberToString := integerToString;
     cwd := "/srv";
     dirname := "/srv";
     isAbsolute := fun p => String.prefix "/" p;
     join := joinPaths;
     loadImage := fun input =>
       match input with
       | FromPath p =>
           Thrown ("ENOENT: no such file or directory, open '" +:+ p +:+ "'")
       | FromBuffer _ => Thrown "Unsupported image type"
       end;
     fetch := fun url => Returned (mkResponse false 404 "Not Found");
     writeFile := fun _ _ => Returned tt;
     randomUUID := fun n => "id" +:+ integerToString (inject_Z (Z.of_nat n)) |}.

Definition noElement : Element :=
  mkElement None None None None None None None None None None None None
    None None None.

Definition rectangleElement (x y w h radius : Q) (color : string) : Element :=
  mkElement (Some "rectangle") None (Some x) (Some y) (Some w) (Some h)
    None None None (Some radius) (Some color) None None None None.

Definition imageElement (name : string) (x y w h : Q) (source : string)
    (clipKind : option string) (border : option Border) : Element :=
  mkElement (Some "image") (Some name) (Some x) (Some y) (Some w) (Some h)
    (Some source) clipKind border None None None None None None.

Definition textElement (x y : Q) (text : string) (fontName : option string)
    : Element :=
  mkElement (Some "text") None (Some x) (Some y) None None None None None
    None None None (Some text) None fontName.

(** ** Vocabulary of the statements *)

(** The path [drawRoundedRect] leaves in the context. *)
Definition roundedRectPath (x y w h radius : Q) : Path :=
  path (drawRoundedRect (createCanvas 0 0) x y w h radius).

(** The paint operations one element contributes, under the clipping
    region [clips0] in force when its turn comes. *)
Section ElementOps.

Variable rt : Runtime.
Variable base : list string.
Variable data : gmap string JsVal.
Variable clips0 : list Path.

Definition centerX (e : Element) : Q :=
  optOr (e_x e) 0%Q + optOr (e_width e) 0%Q / 2.
Definition centerY (e : Element) : Q :=
  optOr (e_y e) 0%Q + optOr (e_height e) 0%Q / 2.
Definition clipRadius (e : Element) : Q :=
  Qmin (optOr (e_width e) 0%Q) (optOr (e_height e) 0%Q) / 2.

(** The disc behind a circular image. *)
Definition ringDisc (e : Element) : list PaintOp :=
  match e_border e with
  | Some b =>
      if clipIs e "circle" && truthyNum (border_width b)
         && truthyStr (border_color b)
      then
        [OpFill
           [Arc (centerX e) (centerY e)
              (clipRadius e + optOr (border_width b) 0%Q / 2) 0 2]
           (JStr (strOrElse
                    (resolveString rt (optOr (border_color b) "") data)
                    "#000000"))
           clips0]
      else []
  | None => []
  end.

(** The clipping region of an image. *)
Definition imageClips (e : Element) : list Path :=
  if clipIs e "circle"
  then [Arc (centerX e) (centerY e) (clipRadius e) 0 2; ClosePath] :: clips0
  else clips0.

Definition imageOps (e : Element) (img : Image) : list PaintOp :=
  ringDisc e
  ++ [OpDrawImage (DImage img) (optOr (e_x e) 0%Q) (optOr (e_y e) 0%Q)
        (optOr (e_width e) 0%Q) (optOr (e_height e) 0%Q) (imageClips e)].

Definition rectangleOps (e : Element) : list PaintOp :=
  [OpFill
     (roundedRectPath (optOr (e_x e) 0%Q) (optOr (e_y e) 0%Q)
        (optOr (e_width e) 0%Q) (optOr (e_height e) 0%Q)
        (optOr (e_radius e) 0%Q))
     (JStr (resolveString rt (optOr (e_color e) "#000000") data))
     clips0].

Definition textFont (e : Element) : string :=
  numberToString rt (optOr (e_fontSize e) 24%Q) +:+ "px "
  +:+ strOrElse (resolveString rt (fieldOrElse (e_font e) brandFont) data)
        brandFont.

Definition textAlignOf (e : Element) : string :=
  let align := toLowerCase (fieldOrElse (e_align e) "left") in
  if existsb (String.eqb align) ["left"; "right"; "center"]
  then align else "left".

Definition textOps (e : Element) : list PaintOp :=
  [OpFillText (JStr (resolveString rt (optOr (e_text e) "") data))
     (optOr (e_x e) 0%Q) (optOr (e_y e) 0%Q) (textFont e)
     (JStr (resolveString rt (optOr (e_color e) "#000000") data))
     (textAlignOf e) clips0].

Definition elementOps (e : Element) : list PaintOp :=
  if typeIs e "image" then
    match acquireImage rt base (fieldOrElse (e_name e) "image")
            (resolveString rt (optOr (e_source e) "") data) with
    | Returned img => imageOps e img
    | Thrown _ => []
    end
  else if typeIs e "rectangle" then rectangleOps e
  else if typeIs e "text" then textOps e
  else [].

End ElementOps.

(** A payload with an [elements] field that is a sequence. *)
Definition hasElementsArray (payload : JsVal) : bool :=
  match payload with
  | JObj props =>
      match lookupProp props "elements" with
      | JArr _ => true
      | _ => false
      end
  | _ => false
  end.


(** A rasterizer for the examples: a path covers its bounding box. *)
Definition segPoints (seg : PathSeg) : list (Q * Q) :=
  match seg with
  | MoveTo x y | LineTo x y => [(x, y)]
  | QuadraticCurveTo _ _ x y => [(x, y)]
  | Arc cx cy r _ _ => [((cx - r)%Q, (cy - r)%Q); ((cx + r)%Q, (cy + r)%Q)]
  | ClosePath => []
  end.

Definition boxRasterizer (p : Path) (pt : Q * Q) : bool :=
  let pts := flat_map segPoints p in
  existsb (fun q => Qle_bool (fst q) (fst pt)) pts
  && existsb (fun q => Qle_bool (fst pt) (fst q)) pts
  && existsb (fun q => Qle_bool (snd q) (snd pt)) pts
  && existsb (fun q => Qle_bool (snd pt) (snd q)) pts.

Definition noGlyphs (text : JsVal) (font align : string) (at_ pt : Q * Q)
    : bool := false.

(** An image element whose file cannot be decoded, and a template with
    it. *)
Definition avatarElement : Element :=
  imageElement "avatar" 10 10 100 80 "assets/broken.png" None None.

Definition avatarTemplate : Template := mkTemplate None [avatarElement].


(** ** Helpers for the proofs *)

(** The part of the context an element leaves as it found it. *)
Definition sameFrame (c c' : Ctx) : Prop :=
  width c' = width c /\ height c' = height c
  /\ clips c' = clips c /\ saved c' = saved c.


(** The capture after a quantified node has taken [ws]. *)
Definition caps (grp : bool) (cap ws : string) : string :=
  if grp then cap +:+ ws else cap.

(** [t] does not start with a character of class [k]. *)
Definition stopsAt (k : Regex.CharClass) (t : string) : Prop :=
  match t with
  | String c _ => Regex.classMatches k c = false
  | EmptyString => True
  end.

(** * Further code of the repository *)

(** ** src/api/debug-placeholders.js

    The handler resolves four fixed test strings against the body and
    compares each result with what it expects. *)

Module DebugPlaceholders.

(** [v || d] *)
Definition orElse (v d : JsVal) : JsVal := if truthy v then v else d.

(** [a === b]. Two objects or arrays are equal when they are the same
    object; the values compared here are never the same object, the left
    one being a string the resolver has just made. *)
Definition strictEq (a b : JsVal) : bool :=
  match a, b with
  | JUndefined, JUndefined => true
  | JNull, JNull => true
  | JBool x, JBool y => Bool.eqb x y
  | JNum x, JNum y => Qeq_bool x y
  | JStr x, JStr y => String.eqb x y
  | _, _ => false
  end.

Record Test : Type := mkTest
  { t_name : string; t_template : string; t_expected : JsVal }.

(** [{ ...test, resolved, success }] *)
Record Result : Type := mkResult
  { r_test : Test; r_resolved : JsVal; r_success : bool }.

Record Summary : Type := mkSummary
  { totalTests : nat; passed : nat; failed : nat }.

Inductive Reply : Type :=
| Ended (status : nat)
| Refused (status : nat) (error : string)
| Report (receivedData : list (string * JsVal)) (dataKeys : list string)
    (tests : list Result) (summary : Summary).

Section Handler.

Variable nts : Q -> string.

(** The properties of the body, as the mapping the resolver reads. *)
Definition mapping (testData : list (string * JsVal))
    : gmap string JsVal :=
  list_to_map testData.

(** Lines 24-46. *)
Definition tests (testData : list (string * JsVal)) : list Test :=
  [ mkTest "Badge Color" "{{ badge_color }}"
      (orElse (lookupProp testData "badge_color") (JStr "MISSING"));
    mkTest "Border Color" "{{ border_color }}"
      (orElse (lookupProp testData "border_color") (JStr "MISSING"));
    mkTest "Sales Name" "{{ sales_name }}"
      (orElse (lookupProp testData "sales_name") (JStr "MISSING"));
    mkTest "Static Text" "No placeholder here"
      (JStr "No placeholder here") ].

(** Lines 48-52: one turn of [tests.map]. *)
Definition run (testData : list (string * JsVal)) (test : Test) : Result :=
  mkResult test
    (resolvePlaceholders nts (JStr (t_template test)) (mapping testData))
    (strictEq
       (resolvePlaceholders nts (JStr (t_template test)) (mapping testData))
       (t_expected test)).

(** The exported handler; [body] is the parsed body, with its properties
    in the order [Object.keys] lists them, when there is one. *)
Definition handler (method : string)
    (body : option (list (string * JsVal))) : Reply :=
  if String.eqb method "OPTIONS" then Ended 200
  else if negb (String.eqb method "POST")
  then Refused 405 "Method not allowed - use POST"
  else
    let testData := optOr body [] in
    let results := map (run testData) (tests testData) in
    Report testData (map fst testData) results
      (mkSummary (length results)
         (length (List.filter (fun r => r_success r) results))
         (length (List.filter (fun r => negb (r_success r)) results))).

End Handler.

End DebugPlaceholders.

(** ** The first server: [POST /generate-image]

    The file src/unnamed/part_000 is an earlier server.js. Its pass differs
    from the later one in two places: the error of a failed fetch does not
    carry the element's name, and the text branch sets one fixed font,
    whatever the element says. The picture is sent as it is. *)

Module Legacy.

Inductive Reply : Type :=
| SentPng (png : FileContent)         (* [res.send(buffer)], image/png *)
| SentError (status : nat) (error : string).

Section GenerateImage.

Variable rt : Runtime.
Variable data : gmap string JsVal.

Definition acquireImage (source : string) : Outcome Image :=
  if startsWith source "http://" || startsWith source "https://" then
    let* resp := fetch rt source in
    if negb (resp_ok resp) then
      Thrown ("Failed to fetch image: "
              +:+ numberToString rt (resp_status resp))
    else loadImage rt (FromBuffer (resp_body resp))
  else loadImage rt (FromPath (localPath rt [cwd rt] source)).

Definition paintImage (element : Element) (ctx : Ctx) : Outcome Ctx :=
  let x := optOr (e_x element) 0%Q in
  let y := optOr (e_y element) 0%Q in
  let w := optOr (e_width element) 0%Q in
  let h := optOr (e_height element) 0%Q in
  let sourceRaw := optOr (e_source element) "" in
  let source := resolveString rt sourceRaw data in
  let border := e_border element in
  let hasCircleClip := clipIs element "circle" in
  let* imageObj := acquireImage source in
  let ctx :=
    match border with
    | Some b =>
        if hasCircleClip && truthyNum (border_width b)
           && truthyStr (border_color b)
        then
          let ctx := beginPath ctx in
          let ctx :=
            arc (x + w / 2) (y + h / 2)
                (Qmin w h / 2 + optOr (border_width b) 0%Q / 2) 0 2 ctx in
          let ctx :=
            setFillStyle
              (JStr (strOrElse
                       (resolveString rt (optOr (border_color b) "") data)
                       "#000000")) ctx in
          fill ctx
        else ctx
    | None => ctx
    end in
  let ctx := save ctx in
  let ctx :=
    if hasCircleClip then
      let ctx := beginPath ctx in
      let ctx := arc (x + w / 2) (y + h / 2) (Qmin w h / 2) 0 2 ctx in
      let ctx := closePath ctx in
      clip ctx
    else ctx in
  let ctx := drawImage (DImage imageObj) x y w h ctx in
  Returned (restore ctx).

Definition paintText (element : Element) (ctx : Ctx) : Outcome Ctx :=
  let x := optOr (e_x element) 0%Q in
  let y := optOr (e_y element) 0%Q in
  let fontSize := optOr (e_fontSize element) 24%Q in
  let color := resolveString rt (optOr (e_color element) "#000000") data in
  let text := resolveString rt (optOr (e_text element) "") data in
  let align := toLowerCase (fieldOrElse (e_align element) "left") in
  let ctx := setFont (numberToString rt fontSize +:+ "px DB-Admin-X") ctx in
  let ctx := setFillStyle (JStr color) ctx in
  let ctx :=
    setTextAlign
      (if existsb (String.eqb align) ["left"; "right"; "center"]
       then align else "left") ctx in
  Returned (fillText (JStr text) x y ctx).

Definition paintElement (element : Element) (ctx : Ctx) : Outcome Ctx :=
  if typeIs element "image" then paintImage element ctx
  else if typeIs element "rectangle" then paintRectangle rt data element ctx
  else if typeIs element "text" then paintText element ctx
  else Returned ctx.

Fixpoint paintElements (es : list Element) (ctx : Ctx) : Outcome Ctx :=
  match es with
  | [] => Returned ctx
  | element :: rest =>
      let* ctx' := paintElement element ctx in paintElements rest ctx'
  end.

(** Everything inside [try] up to the encoding; the background is loaded
    by the code of the later server. *)
Definition renderSurface (templateDefinition : option Template)
    : Outcome Surface :=
  let* bgImage := Server.loadBackground rt templateDefinition data in
  let* ctx :=
    paintElements
      (match templateDefinition with
       | Some t => elements t
       | None => []
       end) (paintBackground bgImage) in
  Returned (surfaceOf ctx).

Definition generateImage (templateDefinition : option Template) : Reply :=
  match renderSurface templateDefinition with
  | Thrown _ => SentError 500 "Image generation failed"
  | Returned surface => SentPng (PngOf surface)
  end.

End GenerateImage.

End Legacy.

(** ** [POST /preview]

    The route of src/unnamed/part_001 (lines 258-413) runs the code of
    [POST /render] on a template and data taken from the body. *)

Module Preview.

Section Route.

Variable rt : Runtime.

Definition preview (template : option Template)
    (data : option (gmap string JsVal)) : Served :=
  match template, data with
  | Some customTemplate, Some data =>
      match Server.renderSurface rt (Some customTemplate) data with
      | Thrown _ => (mkReply 500 (RError "Preview generation failed"), [])
      | Returned surface =>
          let buffer := PngOf surface in
          let filename := "preview-" +:+ randomUUID rt 1 +:+ ".png" in
          let filePath := join rt [Server.publicDir rt; filename] in
          match writeFile rt filePath buffer with
          | Thrown _ =>
              (mkReply 500 (RError "Failed to save preview image"), [])
          | Returned _ =>
              (mkReply 200
                 (RUrl ("https://ranking-celebration-image-render-api.onrender.com/i/"
                        +:+ filename)),
               [(filePath, buffer)])
          end
      end
  | _, _ =>
      (mkReply 400 (RError "Both template and data are required"), [])
  end.

End Route.

End Preview.

(** ** Runs of requests against the template store *)

Section Runs.

Variable rt : Runtime.

(** The stored definition after a run of [PUT /api/template] requests. *)
Definition putAll (templateDefinition : JsVal) (payloads : list JsVal)
    : JsVal :=
  fold_left (fun td payload => snd (TemplateStore.put rt td payload))
    payloads templateDefinition.

(** The stored definition of src/api/template.js after a run of requests,
    each a method and a body. *)
Definition serveAll (stored templateDefinition : JsVal)
    (requests : list (string * JsVal)) : JsVal :=
  fold_left
    (fun td request =>
       snd (TemplateStore.handler rt (fst request) td stored (snd request)))
    requests templateDefinition.

(** A payload [put] takes in: it passes the check and its file is
    written. *)
Definition accepted (payload : JsVal) : bool :=
  negb (TemplateStore.rejected payload)
  && match writeFile rt (TemplateStore.templatePath rt) (JsonOf payload) with
     | Returned _ => true
     | Thrown _ => false
     end.

End Runs.

(** ** Vocabulary of the further statements *)

(** No opening brace in [s]. *)
Definition braceFree (s : string) : bool :=
  allChars (fun c => negb (Ascii.eqb c "{")) s.

(** No token anywhere in [s]. *)
Definition tokenFree (s : string) : Prop :=
  forall pre suf id rest, s = pre +:+ suf -> ~ Token suf id rest.

(** No string of the element that the pass resolves holds a brace. *)
Definition placeholderFree (e : Element) : Prop :=
  braceFree (optOr (e_source e) "") = true
  /\ braceFree (optOr (e_color e) "#000000") = true
  /\ braceFree (optOr (e_text e) "") = true
  /\ braceFree (fieldOrElse (e_font e) brandFont) = true
  /\ match e_border e with
     | Some b => braceFree (optOr (border_color b) "") = true
     | None => True
     end.

(** The clipping region an operation was issued under. *)
Definition clipsOf (op : PaintOp) : list Path :=
  match op with
  | OpFillRect _ _ _ _ _ cs => cs
  | OpFill _ _ cs => cs
  | OpDrawImage _ _ _ _ _ cs => cs
  | OpFillText _ _ _ _ _ _ cs => cs
  end.

(** The circle a circular image is clipped to. *)
Definition circleOf (e : Element) : Path :=
  [Arc (centerX e) (centerY e) (clipRadius e) 0 2; ClosePath].

(** An object or [null]: what the template file and the store hold when
    they are well shaped. *)
Definition wellShaped (templateDefinition : JsVal) : Prop :=
  truthy templateDefinition = false
  \/ hasElementsArray templateDefinition = true.

(** An element with another [align]. *)
Definition withAlign (e : Element) (a : option string) : Element :=
  mkElement (e_type e) (e_name e) (e_x e) (e_y e) (e_width e) (e_height e)
    (e_source e) (e_clip e) (e_border e) (e_radius e) (e_color e)
    (e_fontSize e) (e_text e) a (e_font e).

(** An element with another [font]. *)
Definition withFont (e : Element) (f : option string) : Element :=
  mkElement (e_type e) (e_name e) (e_x e) (e_y e) (e_width e) (e_height e)
    (e_source e) (e_clip e) (e_border e) (e_radius e) (e_color e)
    (e_fontSize e) (e_text e) (e_align e) f.


(** * Proofs *)

#[local] Arguments String.append !_ _ / : simpl nomatch.

(** ** Strings *)

Lemma append_assoc (a b c : string) : (a +:+ b) +:+ c = a +:+ (b +:+ c).
Proof. induction a as [|x a IH]; simpl; [reflexivity | now rewrite IH]. Qed.

Lemma append_empty_r (a : string) : a +:+ "" = a.
Proof. induction a as [|x a IH]; simpl; [reflexivity | now rewrite IH]. Qed.

Lemma length_append (a b : string) :
  String.length (a +:+ b) = (String.length a + String.length b)%nat.
Proof. induction a as [|x a IH]; simpl; [reflexivity | now rewrite IH]. Qed.

Lemma word_not_space (c : ascii) :
  Regex.isWord c = true -> Regex.isSpace c = false.
Proof.
  destruct c as [[] [] [] [] [] [] [] []]; vm_compute; congruence.
Qed.

Lemma space_not_word (c : ascii) :
  Regex.isSpace c = true -> Regex.isWord c = false.
Proof.
  destruct c as [[] [] [] [] [] [] [] []]; vm_compute; congruence.
Qed.

(** ** The matcher *)

Lemma caps_capture (grp : bool) (cap : string) (c : ascii) (ws : string) :
  caps grp (Regex.capture grp cap c) ws = caps grp cap (String c ws).
Proof.
  unfold caps, Regex.capture. destruct grp; [|reflexivity].
  now rewrite append_assoc.
Qed.

Lemma caps_empty (grp : bool) (cap : string) : caps grp cap "" = cap.
Proof. unfold caps. destruct grp; [apply append_empty_r | reflexivity]. Qed.

(** A run of the class followed by something else: the quantifier takes
    the whole run, and the first attempt of the continuation is at its
    end. *)
Lemma greedy_run k grp cont (ws t cap : string) r :
  allChars (Regex.classMatches k) ws = true ->
  stopsAt k t ->
  cont t (caps grp cap ws) = Some r ->
  Regex.greedy k grp cont (ws +:+ t) cap = Some r.
Proof.
  revert cap. induction ws as [|c ws IH]; intros cap Hall Hstop Hcont.
  - rewrite caps_empty in Hcont. simpl.
    destruct t as [|c t]; simpl; [exact Hcont|].
    simpl in Hstop. now rewrite Hstop.
  - simpl in Hall. apply andb_prop in Hall as [Hc Hall].
    simpl. rewrite Hc.
    rewrite (IH (Regex.capture grp cap c)); auto.
    now rewrite caps_capture.
Qed.

(** Whatever the quantifier ends up with is a run of its class, followed
    by a success of the continuation. *)
Lemma greedy_inv k grp cont (s cap : string) r :
  Regex.greedy k grp cont s cap = Some r ->
  exists ws t,
    s = ws +:+ t /\ allChars (Regex.classMatches k) ws = true
    /\ cont t (caps grp cap ws) = Some r.
Proof.
  revert cap. induction s as [|c s IH]; intros cap H; simpl in H.
  - exists "", "". rewrite caps_empty. auto.
  - destruct (Regex.classMatches k c) eqn:Hc.
    + destruct (Regex.greedy k grp cont s (Regex.capture grp cap c)) eqn:Hg.
      * injection H as <-. apply IH in Hg as (ws & t & -> & Hall & Hcont).
        exists (String c ws), t. simpl. rewrite Hc, Hall.
        rewrite caps_capture in Hcont. auto.
      * exists "", (String c s). rewrite caps_empty. auto.
    + exists "", (String c s). rewrite caps_empty. auto.
Qed.

Lemma lit_matches (c c' : ascii) :
  Regex.classMatches (Regex.Lit c) c' = true -> c' = c.
Proof. unfold Regex.classMatches. intros H. now apply Ascii.eqb_eq in H. Qed.

(** One lemma per quantifier, in each direction. *)
Lemma once_inv k grp p (s cap : string) r :
  Regex.matchNodes (Regex.mkNode k Regex.Once grp :: p) s cap = Some r ->
  exists c s',
    s = String c s' /\ Regex.classMatches k c = true
    /\ Regex.matchNodes p s' (Regex.capture grp cap c) = Some r.
Proof.
  simpl. destruct s as [|c s']; [discriminate|].
  destruct (Regex.classMatches k c) eqn:Hc; [|discriminate].
  intros H. exists c, s'. auto.
Qed.

Lemma star_inv k grp p (s cap : string) r :
  Regex.matchNodes (Regex.mkNode k Regex.ZeroOrMore grp :: p) s cap = Some r ->
  exists ws t,
    s = ws +:+ t /\ allChars (Regex.classMatches k) ws = true
    /\ Regex.matchNodes p t (caps grp cap ws) = Some r.
Proof. simpl. apply greedy_inv. Qed.

Lemma plus_inv k grp p (s cap : string) r :
  Regex.matchNodes (Regex.mkNode k Regex.OneOrMore grp :: p) s cap = Some r ->
  exists ws t,
    s = ws +:+ t /\ allChars (Regex.classMatches k) ws = true /\ ws <> ""
    /\ Regex.matchNodes p t (caps grp cap ws) = Some r.
Proof.
  simpl. destruct s as [|c s']; [discriminate|].
  destruct (Regex.classMatches k c) eqn:Hc; [|discriminate].
  intros H. apply greedy_inv in H as (ws & t & -> & Hall & H).
  exists (String c ws), t. simpl. rewrite Hc, Hall.
  rewrite caps_capture in H. repeat split; auto; discriminate.
Qed.

Lemma once_run k grp p (c : ascii) (s cap : string) r :
  Regex.classMatches k c = true ->
  Regex.matchNodes p s (Regex.capture grp cap c) = Some r ->
  Regex.matchNodes (Regex.mkNode k Regex.Once grp :: p) (String c s) cap
  = Some r.
Proof. intros Hc H. simpl. now rewrite Hc. Qed.

Lemma star_run k grp p (ws t cap : string) r :
  allChars (Regex.classMatches k) ws = true ->
  stopsAt k t ->
  Regex.matchNodes p t (caps grp cap ws) = Some r ->
  Regex.matchNodes (Regex.mkNode k Regex.ZeroOrMore grp :: p) (ws +:+ t) cap
  = Some r.
Proof. intros. simpl. now apply greedy_run. Qed.

Lemma plus_run k grp p (ws t cap : string) r :
  allChars (Regex.classMatches k) ws = true -> ws <> "" ->
  stopsAt k t ->
  Regex.matchNodes p t (caps grp cap ws) = Some r ->
  Regex.matchNodes (Regex.mkNode k Regex.OneOrMore grp :: p) (ws +:+ t) cap
  = Some r.
Proof.
  intros Hall Hne Hstop H. destruct ws as [|c ws]; [congruence|].
  simpl in Hall. apply andb_prop in Hall as [Hc Hall].
  simpl. rewrite Hc. apply greedy_run; auto. now rewrite caps_capture.
Qed.

Lemma stopsAt_space_word (id t : string) :
  allChars Regex.isWord id = true -> id <> "" ->
  stopsAt Regex.Space (id +:+ t).
Proof.
  destruct id as [|c id]; [congruence|]. simpl. intros H _.
  apply andb_prop in H as [H _]. now apply word_not_space.
Qed.

Lemma stopsAt_word_space (ws t : string) :
  allChars Regex.isSpace ws = true ->
  stopsAt Regex.Word (ws +:+ "}}" +:+ t).
Proof.
  destruct ws as [|c ws]; simpl; [reflexivity|]. intros H.
  apply andb_prop in H as [H _]. now apply space_not_word.
Qed.

(** A match of the pattern at the head of [s] is a token at the head of
    [s], and the other way round. *)
Lemma matchAt_token (s id rest : string) :
  Regex.matchAt Regex.placeholderRegex s = Some (id, rest) <-> Token s id rest.
Proof.
  unfold Regex.matchAt, Regex.placeholderRegex, Regex.lit. split.
  - intros H.
    apply once_inv in H as (c1 & s1 & -> & E1 & H).
    apply once_inv in H as (c2 & s2 & -> & E2 & H).
    apply star_inv in H as (ws1 & t1 & -> & Hws1 & H).
    apply plus_inv in H as (w & t2 & -> & Hw & Hne & H).
    apply star_inv in H as (ws2 & t3 & -> & Hws2 & H).
    apply once_inv in H as (c3 & s3 & -> & E3 & H).
    apply once_inv in H as (c4 & s4 & -> & E4 & H).
    apply lit_matches in E1 as ->. apply lit_matches in E2 as ->.
    apply lit_matches in E3 as ->. apply lit_matches in E4 as ->.
    simpl in H. injection H as <- <-.
    now apply (Token_intro ws1 w ws2 s4).
  - intros H. destruct H as [ws1 id ws2 rest Hws1 Hid Hne Hws2].
    apply once_run; [reflexivity|].
    apply once_run; [reflexivity|].
    apply star_run; [assumption | now apply stopsAt_space_word |].
    apply plus_run; [assumption | assumption | now apply stopsAt_word_space |].
    apply star_run; [assumption | reflexivity |].
    apply once_run; [reflexivity|].
    apply once_run; [reflexivity|].
    reflexivity.
Qed.

Lemma token_shorter (s id rest : string) :
  Token s id rest -> (String.length rest < String.length s)%nat.
Proof.
  intros [ws1 i ws2 r _ _ _ _].
  change ("{{" +:+ ws1 +:+ i +:+ ws2 +:+ "}}" +:+ r)
    with (String "{" (String "{" (ws1 +:+ i +:+ ws2 +:+ "}}" +:+ r))).
  simpl. rewrite !length_append. simpl. lia.
Qed.

Lemma token_functional (s id rest id' rest' : string) :
  Token s id rest -> Token s id' rest' -> id = id' /\ rest = rest'.
Proof.
  intros H H'. apply matchAt_token in H, H'. rewrite H in H'.
  injection H' as <- <-. auto.
Qed.

(** ** The scan *)

Lemma replaceLoop_resolves (f : string -> string) (fuel : nat) (s : string) :
  (String.length s < fuel)%nat ->
  Resolves f s (Regex.replaceLoop fuel Regex.placeholderRegex f s).
Proof.
  revert s. induction fuel as [|fuel IH]; intros s Hlen; [lia|].
  destruct s as [|c s].
  - simpl. constructor.
  - cbn [Regex.replaceLoop].
    destruct (Regex.matchAt Regex.placeholderRegex (String c s))
      as [[cap rest]|] eqn:Hm.
    + apply matchAt_token in Hm.
      pose proof (token_shorter _ _ _ Hm) as Hlt.
      apply Nat.ltb_lt in Hlt as Hltb. rewrite Hltb.
      apply Resolves_token with (id := cap) (rest := rest); [assumption|].
      apply IH. simpl in Hlen, Hlt. lia.
    + apply Resolves_char.
      * intros id rest Htok. apply matchAt_token in Htok. congruence.
      * apply IH. simpl in Hlen. lia.
Qed.

Lemma token_nonempty (id rest : string) : ~ Token "" id rest.
Proof. intros H. apply token_shorter in H. simpl in H. lia. Qed.

Lemma resolves_functional (f : string -> string) (s out out' : string) :
  Resolves f s out -> Resolves f s out' -> out = out'.
Proof.
  intros H. revert out'.
  induction H as [|s id rest out Htok _ IH|c s out Hno _ IH]; intros out' H'.
  - inversion H'; subst; [reflexivity|].
    exfalso. eapply token_nonempty; eassumption.
  - inversion H' as [|s' id' rest' o' Htok' Hr'|c' s' o' Hno' Hr']; subst.
    + exfalso. eapply token_nonempty; eassumption.
    + destruct (token_functional _ _ _ _ _ Htok Htok') as [<- <-].
      f_equal. now apply IH.
    + exfalso. exact (Hno' _ _ Htok).
  - inversion H' as [|s' id' rest' o' Htok' Hr'|c' s' o' Hno' Hr']; subst.
    + exfalso. exact (Hno _ _ Htok').
    + f_equal. now apply IH.
Qed.

(** A name is the name of an inherited member exactly when the lookup on
    the prototype answers something, and what it answers is never [null]
    or [undefined]. *)
Lemma inherited_cases (key : string) :
  (isInheritedName key = true
   /\ forall d, nullish (inherited key) d = inherited key)
  \/ (isInheritedName key = false /\ inherited key = JUndefined).
Proof.
  unfold isInheritedName, inheritedNames, inherited, objectPrototypeMethods.
  cbn [existsb lookupProp].
  repeat match goal with
         | |- context [String.eqb ?n key] =>
             destruct (String.eqb n key);
             [left; split; [cbn [orb]; rewrite ?orb_true_r; reflexivity
                           | intros d; reflexivity]|]
         end.
  right. split; reflexivity.
Qed.

Lemma replacer_tokenValue nts (data : gmap string JsVal) (key : string) :
  replacer nts data key = tokenValue nts data key.
Proof.
  unfold replacer, tokenValue, dataGet.
  destruct (data !! key) as [v|]; [destruct v; reflexivity|].
  destruct (inherited_cases key) as [[-> Hn]|[-> ->]]; [|reflexivity].
  now rewrite Hn.
Qed.

(** ** Geometry *)

Local Open Scope Q_scope.

Lemma numOrElse_zero_eq (radius : Q) : numOrElse radius 0 == radius.
Proof.
  unfold numOrElse. destruct (Qeq_bool radius 0) eqn:E; [|reflexivity].
  apply Qeq_bool_iff in E. now symmetry.
Qed.

Lemma Qmax_zero_nonpos (v : Q) : v <= 0 -> Qmax 0 v = 0.
Proof.
  intros H. unfold Qmax, GenericMinMax.gmax.
  destruct (0 ?= v) eqn:E; try reflexivity.
  apply Qlt_alt in E. exfalso. apply (Qlt_not_le _ _ E H).
Qed.

Lemma Qmin_gt (a b : Q) : b < a -> Qmin a b = b.
Proof.
  intros H. unfold Qmin, GenericMinMax.gmin.
  apply Qgt_alt in H. now rewrite H.
Qed.

Lemma cornerRadius_above (w h radius : Q) :
  Qmin w h / 2 < radius ->
  cornerRadius w h radius = cornerRadius w h (Qmin w h / 2).
Proof.
  intros H. unfold cornerRadius. set (m := Qmin w h / 2) in *.
  rewrite (Qmin_gt (numOrElse radius 0) m)
    by (now rewrite numOrElse_zero_eq).
  unfold numOrElse. destruct (Qeq_bool m 0) eqn:E.
  - apply Qeq_bool_iff in E.
    assert (Hm : Qmin 0 m = 0).
    { unfold Qmin, GenericMinMax.gmin.
      destruct (0 ?= m) eqn:C; try reflexivity.
      apply Qgt_alt in C. rewrite E in C. exfalso. apply (Qlt_irrefl _ C). }
    rewrite Hm. rewrite !Qmax_zero_nonpos; try reflexivity.
    + apply Qle_refl.
    + rewrite E. apply Qle_refl.
  - assert (Hm : Qmin m m = m).
    { unfold Qmin, GenericMinMax.gmin. now destruct (m ?= m). }
    now rewrite Hm.
Qed.

Lemma cornerRadius_nonpos (w h radius : Q) :
  radius <= 0 -> cornerRadius w h radius = 0.
Proof.
  intros H. unfold cornerRadius. apply Qmax_zero_nonpos.
  eapply Qle_trans; [apply Q.le_min_l|]. now rewrite numOrElse_zero_eq.
Qed.

Lemma cornerRadius_clamp (w h radius : Q) :
  cornerRadius w h radius == clamp 0 (Qmin w h / 2) radius.
Proof. unfold cornerRadius, clamp. now rewrite numOrElse_zero_eq. Qed.

Lemma cornerRadius_inside (w h radius : Q) :
  0 <= radius <= Qmin w h / 2 -> cornerRadius w h radius == radius.
Proof.
  intros [H0 Hm]. rewrite cornerRadius_clamp. unfold clamp.
  rewrite Q.min_l by exact Hm. now rewrite Q.max_r.
Qed.

(** [drawRoundedRect] starts a new path, builds the outline rounded by
    the corner radius, and touches nothing else of the context. *)
Lemma drawRoundedRect_path (ctx : Ctx) (x y w h radius : Q) :
  drawRoundedRect ctx x y w h radius
  = setPath ctx (roundedOutline x y w h (cornerRadius w h radius)).
Proof. reflexivity. Qed.

(** C5. The corner radius used to build the path of a rounded rectangle
    is the requested radius clamped to [[0, min(width,height)/2]]: the
    path [drawRoundedRect] leaves in the context, and a rectangle element
    fills, is the outline of the box rounded by that radius, whatever
    path was there before (a rectangle element without [radius] asks for
    [0]). The radius lies in the interval whenever the
    interval is not empty, and is the requested radius when that lies in
    it; a radius above [min(width,height)/2] gives the very path of the
    maximal radius; a radius of [0] or less gives the plain rectangle. *)
Theorem drawRoundedRect_radius_clamped (ctx : Ctx) (x y w h radius : Q) :
  cornerRadius w h radius == clamp 0 (Qmin w h / 2) radius
  /\ (0 <= Qmin w h / 2 -> 0 <= cornerRadius w h radius <= Qmin w h / 2)
  /\ (0 <= radius <= Qmin w h / 2 -> cornerRadius w h radius == radius)
  /\ (Qmin w h / 2 < radius ->
        drawRoundedRect ctx x y w h radius
        = drawRoundedRect ctx x y w h (Qmin w h / 2))
  /\ (radius <= 0 ->
        samePath (path (drawRoundedRect ctx x y w h radius))
          (plainRectangle x y w h))
  /\ (exists r,
        r == clamp 0 (Qmin w h / 2) radius
        /\ path (drawRoundedRect ctx x y w h radius)
           = roundedOutline x y w h r
        /\ samePath (roundedOutline x y w h r)
             (roundedOutline x y w h (clamp 0 (Qmin w h / 2) radius))
        /\ ops (drawRoundedRect ctx x y w h radius) = ops ctx
        /\ clips (drawRoundedRect ctx x y w h radius) = clips ctx)
  /\ (forall rt base data e,
        e_type e = Some "rectangle" ->
        exists r ctx' style,
          r == clamp 0
                 (Qmin (optOr (e_width e) 0) (optOr (e_height e) 0) / 2)
                 (optOr (e_radius e) 0)
          /\ paintElement rt base data e ctx = Returned ctx'
          /\ ops ctx'
             = ops ctx
               ++ [OpFill
                     (roundedOutline (optOr (e_x e) 0) (optOr (e_y e) 0)
                        (optOr (e_width e) 0) (optOr (e_height e) 0) r)
                     style (clips ctx)]).
Proof.
  split; [|split; [|split; [|split; [|split; [|split]]]]].
  - apply cornerRadius_clamp.
  - intros Hm. unfold cornerRadius. split.
    + apply Q.le_max_l.
    + apply Q.max_lub; [exact Hm | apply Q.le_min_r].
  - apply cornerRadius_inside.
  - intros H. unfold drawRoundedRect.
    now rewrite (cornerRadius_above w h radius H).
  - intros H. unfold drawRoundedRect.
    rewrite (cornerRadius_nonpos w h radius H).
    unfold samePath, plainRectangle. simpl.
    repeat (constructor; [simpl; repeat split; ring|]). constructor.
  - exists (cornerRadius w h radius).
    pose proof (cornerRadius_clamp w h radius) as Hc.
    split; [exact Hc|]. rewrite drawRoundedRect_path.
    split; [reflexivity|]. split; [|split; reflexivity].
    unfold samePath, roundedOutline.
    repeat (constructor; [simpl; rewrite ?Hc; repeat split; reflexivity|]).
    constructor.
  - intros rt base data e Hty.
    exists (cornerRadius (optOr (e_width e) 0) (optOr (e_height e) 0)
              (optOr (e_radius e) 0)).
    do 2 eexists. split; [apply cornerRadius_clamp|].
    unfold paintElement, typeIs. rewrite Hty.
    cbn [String.eqb Ascii.eqb Bool.eqb].
    unfold paintRectangle. rewrite drawRoundedRect_path.
    split; reflexivity.
Qed.

Lemma drawRoundedRect_radius_clamped_witness :
  0 <= cornerRadius 100 40 50 <= Qmin 100 40 / 2
  /\ cornerRadius 100 40 12 == 12
  /\ drawRoundedRect (createCanvas 200 200) 10 10 100 40 50
     = drawRoundedRect (createCanvas 200 200) 10 10 100 40 (Qmin 100 40 / 2)
  /\ samePath
       (path (drawRoundedRect (createCanvas 200 200) 10 10 100 40 (-(3))))
       (plainRectangle 10 10 100 40)
  /\ (exists r ctx' style,
        r == clamp 0 (Qmin 100 40 / 2) 50
        /\ paintElement sampleRuntime ["/srv"] ∅
             (rectangleElement 10 10 100 40 50 "#112233")
             (createCanvas 200 200) = Returned ctx'
        /\ ops ctx' = [OpFill (roundedOutline 10 10 100 40 r) style []]).
Proof.
  destruct (drawRoundedRect_radius_clamped (createCanvas 200 200)
              10 10 100 40 50) as (_ & Hin & _ & Habove & _ & _ & Helement).
  destruct (drawRoundedRect_radius_clamped (createCanvas 200 200)
              10 10 100 40 12) as (_ & _ & Hkeep & _).
  destruct (drawRoundedRect_radius_clamped (createCanvas 200 200)
              10 10 100 40 (-(3))) as (_ & _ & _ & _ & Hplain & _).
  split; [|split; [|split; [|split]]].
  - apply Hin. vm_compute. discriminate.
  - apply Hkeep. split; vm_compute; discriminate.
  - apply Habove. reflexivity.
  - apply Hplain. vm_compute. discriminate.
  - exact (Helement sampleRuntime ["/srv"] ∅
             (rectangleElement 10 10 100 40 50 "#112233") eq_refl).
Defined.

Local Close Scope Q_scope.

(** ** The element pass *)

Section PassFacts.

Variable rt : Runtime.
Variable base : list string.
Variable data : gmap string JsVal.

Lemma typeIs_true (e : Element) (t : string) :
  typeIs e t = true <-> e_type e = Some t.
Proof.
  unfold typeIs. destruct (e_type e) as [s|]; [|split; discriminate].
  rewrite String.eqb_eq. split; congruence.
Qed.

Lemma typeIs_false (e : Element) (t : string) :
  typeIs e t = false <-> e_type e <> Some t.
Proof.
  rewrite <- typeIs_true. destruct (typeIs e t); split; congruence.
Qed.

Lemma paintElements_app (es1 es2 : list Element) (ctx : Ctx) :
  paintElements rt base data (es1 ++ es2) ctx
  = bind (paintElements rt base data es1 ctx)
         (paintElements rt base data es2).
Proof.
  revert ctx. induction es1 as [|e es1 IH]; intros ctx; simpl.
  - reflexivity.
  - destruct (paintElement rt base data e ctx); simpl; auto.
Qed.

Lemma sameFrame_refl (c : Ctx) : sameFrame c c.
Proof. repeat split. Qed.

Lemma sameFrame_trans (a b c : Ctx) :
  sameFrame a b -> sameFrame b c -> sameFrame a c.
Proof.
  unfold sameFrame. intros (?&?&?&?) (?&?&?&?). repeat split; congruence.
Qed.

Lemma paintRectangle_ops (e : Element) (ctx : Ctx) :
  exists ctx',
    paintRectangle rt data e ctx = Returned ctx'
    /\ ops ctx' = ops ctx ++ rectangleOps rt data (clips ctx) e
    /\ sameFrame ctx ctx'.
Proof. eexists. repeat split. Qed.

Lemma paintText_ops (e : Element) (ctx : Ctx) :
  exists ctx',
    paintText rt data e ctx = Returned ctx'
    /\ ops ctx' = ops ctx ++ textOps rt data (clips ctx) e
    /\ font ctx' = textFont rt data e
    /\ sameFrame ctx ctx'.
Proof. eexists. repeat split. Qed.

Lemma paintImage_ops (e : Element) (ctx : Ctx) (img : Image) :
  acquireImage rt base (fieldOrElse (e_name e) "image")
    (resolveString rt (optOr (e_source e) "") data) = Returned img ->
  exists ctx',
    paintImage rt base data e ctx = Returned ctx'
    /\ ops ctx' = ops ctx ++ imageOps rt data (clips ctx) e img
    /\ sameFrame ctx ctx'.
Proof.
  intros Hacq. unfold paintImage, imageOps, ringDisc, imageClips.
  rewrite Hacq. simpl.
  destruct (e_border e) as [b|];
    [destruct (clipIs e "circle" && truthyNum (border_width b)
               && truthyStr (border_color b))|];
    destruct (clipIs e "circle");
    eexists; (split; [reflexivity|]); simpl;
    rewrite <- ?app_assoc; repeat split.
Qed.

Lemma paintImage_thrown (e : Element) (ctx : Ctx) (message : string) :
  acquireImage rt base (fieldOrElse (e_name e) "image")
    (resolveString rt (optOr (e_source e) "") data) = Thrown message ->
  paintImage rt base data e ctx = Thrown message.
Proof. intros H. unfold paintImage. now rewrite H. Qed.

(** Each turn of the loop only adds to the paint operations. *)
Lemma paintElement_ops (e : Element) (ctx ctx' : Ctx) :
  paintElement rt base data e ctx = Returned ctx' ->
  ops ctx' = ops ctx ++ elementOps rt base data (clips ctx) e
  /\ sameFrame ctx ctx'.
Proof.
  unfold paintElement, elementOps.
  destruct (typeIs e "image").
  - destruct (acquireImage rt base (fieldOrElse (e_name e) "image")
                (resolveString rt (optOr (e_source e) "") data))
      as [img|message] eqn:Hacq.
    + destruct (paintImage_ops e ctx img Hacq) as (c & -> & Hops & Hf).
      intros [= <-]. auto.
    + rewrite (paintImage_thrown e ctx message Hacq). discriminate.
  - destruct (typeIs e "rectangle").
    + destruct (paintRectangle_ops e ctx) as (c & -> & Hops & Hf).
      intros [= <-]. auto.
    + destruct (typeIs e "text").
      * destruct (paintText_ops e ctx) as (c & -> & Hops & _ & Hf).
        intros [= <-]. auto.
      * intros [= <-]. rewrite app_nil_r. split; [reflexivity|].
        apply sameFrame_refl.
Qed.

(** The whole loop: the operations of the elements, one element after
    the other in array order. *)
Lemma paintElements_ops (es : list Element) (ctx ctx' : Ctx) :
  paintElements rt base data es ctx = Returned ctx' ->
  ops ctx' = ops ctx ++ flat_map (elementOps rt base data (clips ctx)) es
  /\ sameFrame ctx ctx'.
Proof.
  revert ctx. induction es as [|e es IH]; intros ctx; simpl.
  - intros [= <-]. rewrite app_nil_r. split; [reflexivity|].
    apply sameFrame_refl.
  - destruct (paintElement rt base data e ctx) as [c|] eqn:He;
      [|discriminate].
    simpl. intros H.
    apply paintElement_ops in He as [Hops Hf].
    apply IH in H as [Hops' Hf'].
    split; [|eapply sameFrame_trans; eassumption].
    rewrite Hops', Hops. destruct Hf as (_ & _ & -> & _).
    now rewrite <- app_assoc.
Qed.



(** An image element whose pixels cannot be had stops the loop. *)
Lemma paintElements_thrown (e : Element) (es : list Element) (ctx : Ctx)
    (message : string) :
  In e es -> e_type e = Some "image" ->
  acquireImage rt base (fieldOrElse (e_name e) "image")
    (resolveString rt (optOr (e_source e) "") data) = Thrown message ->
  exists message', paintElements rt base data es ctx = Thrown message'.
Proof.
  intros Hin Hty Hacq. revert ctx.
  induction es as [|e' es IH]; intros ctx; [destruct Hin|].
  simpl. destruct (paintElement rt base data e' ctx) as [c|m] eqn:He.
  - destruct Hin as [->|Hin].
    + unfold paintElement in He. apply typeIs_true in Hty.
      rewrite Hty in He.
      rewrite (paintImage_thrown e ctx message Hacq) in He. discriminate.
    + simpl. now apply IH.
  - exists m. reflexivity.
Qed.


End PassFacts.

(** ** Placeholder resolution *)

Lemma resolves_ext (f g : string -> string) (s out : string) :
  (forall k, f k = g k) -> Resolves f s out -> Resolves g s out.
Proof.
  intros Hfg H. induction H as [|s id rest out Htok _ IH|c s out Hno _ IH].
  - constructor.
  - rewrite Hfg. now apply Resolves_token with (rest := rest).
  - now apply Resolves_char.
Qed.

Lemma resolveString_resolves (rt : Runtime) (data : gmap string JsVal)
    (s : string) :
  Resolves (tokenValue (numberToString rt) data) s (resolveString rt s data).
Proof.
  apply resolves_ext with (f := replacer (numberToString rt) data).
  - apply replacer_tokenValue.
  - unfold resolveString, Regex.replaceAll. apply replaceLoop_resolves. lia.
Qed.

Lemma resolvePlaceholders_string (rt : Runtime) (s : string)
    (data : gmap string JsVal) :
  resolvePlaceholders (numberToString rt) (JStr s) data
  = JStr (resolveString rt s data).
Proof. reflexivity. Qed.

Lemma inherited_text_nonempty (nts : Q -> string) (key : string) :
  isInheritedName key = true -> toString nts (inherited key) <> "".
Proof.
  unfold isInheritedName, inheritedNames, inherited, objectPrototypeMethods.
  cbn [existsb lookupProp].
  repeat match goal with
         | |- context [String.eqb ?n key] =>
             destruct (String.eqb n key); [intros _; discriminate|]
         end.
  discriminate.
Qed.

Lemma tokenValue_stated (nts : Q -> string) (data : gmap string JsVal)
    (id : string) :
  isInheritedName id = false \/ data !! id <> None ->
  tokenValue nts data id = statedValue nts data id.
Proof.
  unfold tokenValue, statedValue.
  destruct (data !! id) as [v|]; [reflexivity|].
  intros [->|H]; [reflexivity | congruence].
Qed.

(** C2, as stated, fails: the empty mapping holds no key [constructor],
    and the token of that name is not replaced by the empty string but by
    the text of the function every object inherits under the name. *)
Lemma absent_key_resolves_to_inherited_member :
  (∅ : gmap string JsVal) !! "constructor" = None
  /\ resolvePlaceholders integerToString (JStr "{{constructor}}") ∅
     = JStr "function Object() { [native code] }"
  /\ ~ Resolves (statedValue integerToString ∅) "{{constructor}}"
        "function Object() { [native code] }".
Proof.
  split; [reflexivity|]. split; [vm_compute; reflexivity|].
  intros H.
  assert (Hstated : Resolves (statedValue integerToString ∅)
                      "{{constructor}}"
                      (statedValue integerToString ∅ "constructor" +:+ "")).
  { apply Resolves_token with (rest := ""); [|constructor].
    apply matchAt_token. vm_compute. reflexivity. }
  pose proof (resolves_functional _ _ _ _ H Hstated) as Heq.
  vm_compute in Heq. discriminate.
Qed.

(** C2, amended. [resolvePlaceholders(value, data)] returns a value that
    is not a string unchanged. On a string it replaces every token
    ['{{' whitespace* identifier whitespace* '}}'] by the string form of
    [data[identifier]], or by the empty string when that is [null] or
    [undefined]; each token is resolved on its own, and text that is no
    token stays as it is. The result is the only string the rules allow.
    The value of a token is the one stated, the empty string for a key the
    mapping does not hold, except under the names every object inherits a
    member by: a key of such a name that the mapping does not hold is
    replaced by the string form of the member, which is never empty. *)
Theorem resolvePlaceholders_spec (nts : Q -> string) (value : JsVal)
    (data : gmap string JsVal) :
  match value with
  | JStr s =>
      exists out,
        resolvePlaceholders nts value data = JStr out
        /\ Resolves (tokenValue nts data) s out
        /\ forall out', Resolves (tokenValue nts data) s out' -> out' = out
  | _ => resolvePlaceholders nts value data = value
  end
  /\ (forall id,
         isInheritedName id = false \/ data !! id <> None ->
         tokenValue nts data id = statedValue nts data id)
  /\ (forall id,
         isInheritedName id = true -> data !! id = None ->
         tokenValue nts data id = toString nts (inherited id)
         /\ tokenValue nts data id <> "").
Proof.
  split; [|split].
  - destruct value as [| |b|q|s|items|props|name]; try reflexivity.
    eexists. split; [reflexivity|].
    assert (H : Resolves (tokenValue nts data) s
                  (Regex.replaceAll Regex.placeholderRegex
                     (replacer nts data) s)).
    { apply resolves_ext with (f := replacer nts data).
      - apply replacer_tokenValue.
      - unfold Regex.replaceAll. apply replaceLoop_resolves. lia. }
    split; [exact H|].
    intros out' H'. exact (resolves_functional _ _ _ _ H' H).
  - intros id. apply tokenValue_stated.
  - intros id Hin Hno. unfold tokenValue. rewrite Hno, Hin.
    split; [reflexivity|]. now apply inherited_text_nonempty.
Qed.

Example resolve_inherited_names :
  resolvePlaceholders integerToString
    (JStr "{{constructor}}|{{toString}}|{{__proto__}}|{{missing}}") ∅
  = JStr ("function Object() { [native code] }|"
          +:+ "function toString() { [native code] }|[object Object]|").
Proof. vm_compute. reflexivity. Qed.

(** The examples of the specification. *)
Example resolve_two_tokens :
  resolvePlaceholders integerToString (JStr "{{a}}-{{b}}")
    (<["a" := JStr "X"]> (<["b" := JStr "Y"]> ∅))
  = JStr "X-Y".
Proof. vm_compute. reflexivity. Qed.

Example resolve_missing_key :
  resolvePlaceholders integerToString (JStr "{{missing}}") ∅ = JStr "".
Proof. vm_compute. reflexivity. Qed.

Example resolve_malformed :
  resolvePlaceholders integerToString (JStr "{{ }} {{a b}} {{ n }}")
    (<["n" := JNum 7]> (<["a" := JNull]> ∅))
  = JStr "{{ }} {{a b}} 7".
Proof. vm_compute. reflexivity. Qed.

(** A string without an opening brace holds no token. *)
Lemma resolveString_color (rt : Runtime) (data : gmap string JsVal) :
  resolveString rt "#FF0000" data = "#FF0000"
  /\ resolveString rt "#00FF00" data = "#00FF00".
Proof. split; reflexivity. Qed.

(** ** Pixels *)

Lemma pixelAt_last inPath inGlyphs (l : list PaintOp) (op : PaintOp)
    (p : Q * Q) :
  covers inPath inGlyphs op p = true ->
  pixelAt inPath inGlyphs (l ++ [op]) p = layerOf op.
Proof.
  intros H. unfold pixelAt. rewrite fold_left_app. simpl. now rewrite H.
Qed.

Lemma composite_ops (rt : Runtime) (base : list string)
    (data : gmap string JsVal) (bgImage : Drawable) (es : list Element)
    (ctx : Ctx) :
  composite rt base data bgImage es = Returned ctx ->
  ops ctx
  = ops (paintBackground bgImage) ++ flat_map (elementOps rt base data []) es
  /\ width ctx = width (paintBackground bgImage)
  /\ height ctx = height (paintBackground bgImage).
Proof.
  unfold composite. intros H.
  apply paintElements_ops in H as [Hops (Hw & Hh & _)]. auto.
Qed.

(** C7. Elements are painted in array order onto the one surface: the
    paint operations of a finished render are the background followed by
    the operations of the elements, element after element; an operation
    shows at every point it covers, whatever was painted before. So with
    two rectangles on the same box, red then green, every point of the
    box's path ends up green. *)
Theorem painters_algorithm (rt : Runtime) (base : list string)
    (data : gmap string JsVal)
    (inPath : Path -> Q * Q -> bool)
    (inGlyphs : JsVal -> string -> string -> Q * Q -> Q * Q -> bool) :
  (forall bgImage es ctx,
      composite rt base data bgImage es = Returned ctx ->
      exists first,
        ops ctx = first :: flat_map (elementOps rt base data []) es
        /\ layerOf first = PixelOf bgImage)
  /\ (forall es1 es2 ctx,
         paintElements rt base data (es1 ++ es2) ctx
         = bind (paintElements rt base data es1 ctx)
                (paintElements rt base data es2))
  /\ (forall painted op p,
         covers inPath inGlyphs op p = true ->
         pixelAt inPath inGlyphs (painted ++ [op]) p = layerOf op)
  /\ (forall bgImage x y w h r1 r2,
         exists ctx,
           composite rt base data bgImage
             [rectangleElement x y w h r1 "#FF0000";
              rectangleElement x y w h r2 "#00FF00"] = Returned ctx
           /\ forall p,
                inPath (roundedRectPath x y w h r2) p = true ->
                pixelAt inPath inGlyphs (ops ctx) p
                = FilledWith (JStr "#00FF00")).
Proof.
  split; [|split; [|split]].
  - intros bgImage es ctx H.
    apply composite_ops in H as (Hops & _ & _).
    eexists. split; [exact Hops | reflexivity].
  - intros. apply paintElements_app.
  - intros. now apply pixelAt_last.
  - intros bgImage x y w h r1 r2. eexists. split; [reflexivity|].
    intros p Hp.
    change (ops _) with
      ([OpDrawImage bgImage 0 0
          (inject_Z (if (drawableWidth bgImage =? 0)%Z then 1080%Z
                     else drawableWidth bgImage))
          (inject_Z (if (drawableHeight bgImage =? 0)%Z then 1080%Z
                     else drawableHeight bgImage)) [];
        OpFill (roundedRectPath x y w h r1) (JStr "#FF0000") []]
       ++ [OpFill (roundedRectPath x y w h r2) (JStr "#00FF00") []]).
    rewrite pixelAt_last; [reflexivity|].
    simpl. now rewrite Hp.
Qed.

(** The end-to-end example of the specification: no background, one
    rectangle, empty data. *)
Example end_to_end_rectangle :
  exists surface,
    Api.renderSurface bareRuntime ∅
      (mkTemplate None [rectangleElement 0 0 100 100 0 "#112233"])
    = Returned surface
    /\ (s_width surface, s_height surface) = (1080%Z, 1080%Z)
    /\ pixelAt boxRasterizer noGlyphs (s_ops surface) (50%Q, 50%Q)
       = FilledWith (JStr "#112233")
    /\ pixelAt boxRasterizer noGlyphs (s_ops surface) (500%Q, 500%Q)
       = PixelOf Api.defaultCanvas.
Proof.
  eexists. split; [reflexivity|]. repeat split; vm_compute; reflexivity.
Qed.

Lemma painters_algorithm_witness :
  exists ctx,
    composite sampleRuntime ["/srv"] ∅ (DImage sampleBackground)
      [rectangleElement 0 0 100 100 0 "#FF0000";
       rectangleElement 0 0 100 100 0 "#00FF00"] = Returned ctx
    /\ pixelAt boxRasterizer noGlyphs (ops ctx) (50%Q, 50%Q)
       = FilledWith (JStr "#00FF00").
Proof.
  destruct (painters_algorithm sampleRuntime ["/srv"] ∅ boxRasterizer noGlyphs)
    as (_ & _ & _ & H).
  destruct (H (DImage sampleBackground) 0%Q 0%Q 100%Q 100%Q 0%Q 0%Q)
    as (ctx & Hc & Hp).
  exists ctx. split; [exact Hc|].
  apply Hp. vm_compute. reflexivity.
Defined.

(** ** Unknown element types *)



(** ** Ring border *)

(** C4. An image element with [clip] equal to [circle] and a border of
    positive width and non-empty colour paints two operations once its
    pixels are there: first a disc of radius
    [min(w,h)/2 + border.width/2] in the resolved border colour
    ([#000000] when the resolution is empty), then the image clipped to the
    circle of radius [min(w,h)/2] with the same centre, the centre of the
    bounding box. The two radii differ by half of [border.width], which is
    the width of the ring left visible around the image. *)
Theorem ring_border_half_width (rt : Runtime) (base : list string)
    (data : gmap string JsVal) (e : Element) (ctx : Ctx) (img : Image)
    (bw : Q) (bc : string) :
  e_type e = Some "image" ->
  e_clip e = Some "circle" ->
  e_border e = Some (mkBorder (Some bw) (Some bc)) ->
  (0 < bw)%Q ->
  bc <> "" ->
  acquireImage rt base (fieldOrElse (e_name e) "image")
    (resolveString rt (optOr (e_source e) "") data) = Returned img ->
  let x := optOr (e_x e) 0%Q in
  let y := optOr (e_y e) 0%Q in
  let w := optOr (e_width e) 0%Q in
  let h := optOr (e_height e) 0%Q in
  let outer := (Qmin w h / 2 + bw / 2)%Q in
  let inner := (Qmin w h / 2)%Q in
  (exists ctx',
      paintElement rt base data e ctx = Returned ctx'
      /\ ops ctx'
         = ops ctx
           ++ [OpFill [Arc (x + w / 2) (y + h / 2) outer 0 2]
                 (JStr (strOrElse (resolveString rt bc data) "#000000"))
                 (clips ctx);
               OpDrawImage (DImage img) x y w h
                 ([Arc (x + w / 2) (y + h / 2) inner 0 2; ClosePath]
                  :: clips ctx)])
  /\ (resolveString rt bc data <> "" ->
      strOrElse (resolveString rt bc data) "#000000"
      = resolveString rt bc data)
  /\ (outer - inner == bw / 2)%Q.
Proof.
  intros Hty Hclip Hborder Hbw Hbc Hacq x y w h outer inner.
  split; [|split].
  - destruct (paintImage_ops rt base data e ctx img Hacq)
      as (ctx' & Hp & Hops & _).
    exists ctx'. split.
    + unfold paintElement. apply typeIs_true in Hty. now rewrite Hty.
    + rewrite Hops. f_equal.
      unfold imageOps, ringDisc, imageClips, clipIs.
      rewrite Hborder, Hclip. simpl.
      assert (Hnz : Qeq_bool bw 0 = false).
      { destruct (Qeq_bool bw 0) eqn:E; [|reflexivity].
        apply Qeq_bool_iff in E. rewrite E in Hbw.
        exfalso. exact (Qlt_irrefl _ Hbw). }
      assert (Hne : String.eqb bc "" = false) by now apply String.eqb_neq.
      rewrite Hnz, Hne. reflexivity.
  - intros Hc. unfold strOrElse.
    apply String.eqb_neq in Hc. now rewrite Hc.
  - unfold outer, inner. ring.
Qed.

Lemma ring_border_half_width_witness :
  (exists ctx',
      paintElement sampleRuntime ["/srv"] (<["c" := JStr "#FFD700"]> ∅)
        (imageElement "avatar" 10 10 100 80 "assets/photo.png"
           (Some "circle") (Some (mkBorder (Some 8%Q) (Some "{{c}}"))))
        (createCanvas 900 900) = Returned ctx'
      /\ ops ctx'
         = [OpFill [Arc (10 + 100 / 2) (10 + 80 / 2)
                      (Qmin 100 80 / 2 + 8 / 2) 0 2]
              (JStr "#FFD700") [];
            OpDrawImage (DImage samplePhoto) 10 10 100 80
              [[Arc (10 + 100 / 2) (10 + 80 / 2) (Qmin 100 80 / 2) 0 2;
                ClosePath]]])
  /\ (Qmin 100 80 / 2 + 8 / 2 - Qmin 100 80 / 2 == 8 / 2)%Q.
Proof.
  assert (Hne : "{{c}}" <> "") by discriminate.
  refine ((fun H => conj (proj1 H) (proj2 (proj2 H))) _).
  exact (ring_border_half_width sampleRuntime ["/srv"]
           (<["c" := JStr "#FFD700"]> ∅)
           (imageElement "avatar" 10 10 100 80 "assets/photo.png"
              (Some "circle") (Some (mkBorder (Some 8%Q) (Some "{{c}}"))))
           (createCanvas 900 900) samplePhoto 8%Q "{{c}}"
           eq_refl eq_refl eq_refl eq_refl Hne eq_refl).
Defined.

(** ** Font fallback *)

(** C10. A text element whose font, after substitution, is the empty
    string is drawn with the brand font: the font of the context, and of
    the text painted, is the size followed by [px DB-Adman-X]. *)
Theorem empty_font_falls_back_to_brand (rt : Runtime) (base : list string)
    (data : gmap string JsVal) (e : Element) (ctx : Ctx) :
  e_type e = Some "text" ->
  resolveString rt (fieldOrElse (e_font e) brandFont) data = "" ->
  exists ctx' text x y style align,
    paintElement rt base data e ctx = Returned ctx'
    /\ font ctx'
       = numberToString rt (optOr (e_fontSize e) 24%Q) +:+ "px DB-Adman-X"
    /\ ops ctx'
       = ops ctx ++ [OpFillText text x y (font ctx') style align (clips ctx)].
Proof.
  intros Hty Hfont.
  destruct (paintText_ops rt data e ctx) as (ctx' & Hp & Hops & Hf & _).
  exists ctx'. do 5 eexists. split; [|split].
  - unfold paintElement.
    assert (Hi : typeIs e "image" = false)
      by (apply typeIs_false; rewrite Hty; discriminate).
    assert (Hr : typeIs e "rectangle" = false)
      by (apply typeIs_false; rewrite Hty; discriminate).
    apply typeIs_true in Hty. now rewrite Hi, Hr, Hty.
  - rewrite Hf. unfold textFont. now rewrite Hfont.
  - rewrite Hops, Hf. reflexivity.
Qed.

Lemma empty_font_falls_back_to_brand_witness :
  exists ctx' text x y style align,
    paintElement sampleRuntime ["/srv"] ∅
      (textElement 40 60 "Congratulations" (Some "{{ family }}"))
      (createCanvas 900 900) = Returned ctx'
    /\ font ctx' = "24px DB-Adman-X"
    /\ ops ctx' = [OpFillText text x y (font ctx') style align []].
Proof.
  apply (empty_font_falls_back_to_brand sampleRuntime ["/srv"] ∅
           (textElement 40 60 "Congratulations" (Some "{{ family }}"))
           (createCanvas 900 900)); reflexivity.
Defined.

(** ** Background *)

(** In src/api/render.js no failure of a background load leaves the
    [try] block: the background step always yields something to draw. *)
Lemma api_background_never_fatal (rt : Runtime) (data : gmap string JsVal)
    (t : Template) :
  elements t = [] ->
  exists surface, Api.renderSurface rt data t = Returned surface.
Proof.
  intros He. unfold Api.renderSurface. rewrite He. eexists. reflexivity.
Qed.

(** In src/server.js a failure of the fallback load leaves the [try]
    block. *)
Lemma server_fallback_failure_fatal (rt : Runtime)
    (templateDefinition : option Template) (data : gmap string JsVal)
    (message : string) :
  templateBackground rt [cwd rt] data templateDefinition = None ->
  loadImage rt (FromPath (fallbackBg rt)) = Thrown message ->
  Server.renderSurface rt templateDefinition data = Thrown message
  /\ Server.render rt templateDefinition data
     = (mkReply 500 (RError "Image generation failed"), []).
Proof.
  intros Hbg Hfb.
  assert (H : Server.renderSurface rt templateDefinition data
              = Thrown message).
  { unfold Server.renderSurface, Server.loadBackground.
    now rewrite Hbg, Hfb. }
  split; [exact H|]. unfold Server.render. now rewrite H.
Qed.

(** C1. On a machine where neither the template's background nor the
    fallback asset can be loaded, [POST /render] of src/server.js answers
    500 and writes no image, while the handler of src/api/render.js, on the
    same machine and template, answers with the white 1080x1080 surface. *)
Theorem server_render_fails_without_background :
  Server.render bareRuntime (Some (mkTemplate (Some "bg.png") [])) ∅
  = (mkReply 500 (RError "Image generation failed"), [])
  /\ Api.handler bareRuntime ∅ "POST" (Some (mkTemplate (Some "bg.png") []))
       None
     = (mkReply 200
          (RImage
             (PngOf
                (mkSurface 1080 1080
                   [OpDrawImage
                      (DCanvas 1080 1080
                         [OpFillRect 0 0 1080 1080 (JStr "#ffffff") []])
                      0 0 1080 1080 []]))),
        []).
Proof. split; vm_compute; reflexivity. Qed.

(** C8. With an empty element sequence the finished surface is the
    background alone, drawn from the origin over the full width and height
    of the surface, and the surface has the natural width and height of
    the background, [1080] standing in for a dimension that is zero. In
    src/api/render.js there always is a background: the white 1080 by 1080
    canvas when no image loads. In src/server.js there is none then: the
    load of the fallback asset throws, the render fails with the 500 error
    and no surface is made, where the specification has a surface of 1080
    by 1080. *)
Theorem background_only_render (rt : Runtime) (data : gmap string JsVal)
    (bg : option string) :
  let tpl := mkTemplate bg [] in
  let alone (bgImage : Drawable) :=
    let w := if (drawableWidth bgImage =? 0)%Z then 1080%Z
             else drawableWidth bgImage in
    let h := if (drawableHeight bgImage =? 0)%Z then 1080%Z
             else drawableHeight bgImage in
    mkSurface w h [OpDrawImage bgImage 0 0 (inject_Z w) (inject_Z h) []] in
  Server.renderSurface rt (Some tpl) data
  = match Server.loadBackground rt (Some tpl) data with
    | Returned bgImage => Returned (alone bgImage)
    | Thrown message => Thrown message
    end
  /\ Api.renderSurface rt data tpl
     = Returned (alone (Api.loadBackground rt data (Some tpl)))
  /\ (forall bgImage,
         (0 < drawableWidth bgImage)%Z ->
         (0 < drawableHeight bgImage)%Z ->
         alone bgImage
         = mkSurface (drawableWidth bgImage) (drawableHeight bgImage)
             [OpDrawImage bgImage 0 0 (inject_Z (drawableWidth bgImage))
                (inject_Z (drawableHeight bgImage)) []])
  /\ (forall message,
         templateBackground rt [cwd rt] data (Some tpl) = None ->
         loadImage rt (FromPath (fallbackBg rt)) = Thrown message ->
         Server.renderSurface rt (Some tpl) data = Thrown message
         /\ Server.render rt (Some tpl) data
            = (mkReply 500 (RError "Image generation failed"), []))
  /\ (forall message,
         templateBackground rt [dirname rt; ".."] data (Some tpl) = None ->
         loadImage rt (FromPath (fallbackBg rt)) = Thrown message ->
         Api.renderSurface rt data tpl
         = Returned
             (mkSurface 1080 1080
                [OpDrawImage
                   (DCanvas 1080 1080
                      [OpFillRect 0 0 1080 1080 (JStr "#ffffff") []])
                   0 0 1080 1080 []])).
Proof.
  intros tpl alone. split; [|split; [|split; [|split]]].
  - unfold Server.renderSurface.
    destruct (Server.loadBackground rt (Some tpl) data); reflexivity.
  - reflexivity.
  - intros bgImage Hw Hh. unfold alone.
    assert (Ew : (drawableWidth bgImage =? 0)%Z = false)
      by (apply Z.eqb_neq; lia).
    assert (Eh : (drawableHeight bgImage =? 0)%Z = false)
      by (apply Z.eqb_neq; lia).
    now rewrite Ew, Eh.
  - intros message Hbg Hfb.
    now apply server_fallback_failure_fatal.
  - intros message Hbg Hfb.
    unfold Api.renderSurface, Api.loadBackground.
    rewrite Hbg, Hfb. reflexivity.
Qed.

Lemma background_only_render_witness :
  Server.renderSurface bareRuntime (Some (mkTemplate None [])) ∅
  = Thrown "ENOENT: no such file or directory, open '/srv/assets/background.png'"
  /\ Server.render bareRuntime (Some (mkTemplate None [])) ∅
     = (mkReply 500 (RError "Image generation failed"), [])
  /\ Api.renderSurface bareRuntime ∅ (mkTemplate None [])
     = Returned
         (mkSurface 1080 1080
            [OpDrawImage
               (DCanvas 1080 1080
                  [OpFillRect 0 0 1080 1080 (JStr "#ffffff") []])
               0 0 1080 1080 []])
  /\ Server.renderSurface sampleRuntime (Some (mkTemplate None [])) ∅
     = Returned
         (mkSurface 900 900
            [OpDrawImage (DImage sampleBackground) 0 0 900 900 []]).
Proof.
  destruct (background_only_render bareRuntime ∅ None)
    as (_ & _ & _ & Hserver & Hapi).
  destruct (background_only_render sampleRuntime ∅ None)
    as (Hsample & _ & Hnatural & _).
  destruct (Hserver
              "ENOENT: no such file or directory, open '/srv/assets/background.png'"
              eq_refl eq_refl) as [Hthrown Hreply].
  split; [exact Hthrown|]. split; [exact Hreply|]. split.
  - exact (Hapi
             "ENOENT: no such file or directory, open '/srv/assets/background.png'"
             eq_refl eq_refl).
  - rewrite Hsample.
    change (Server.loadBackground sampleRuntime (Some (mkTemplate None [])) ∅)
      with (Returned (DImage sampleBackground) : Outcome Drawable).
    exact (f_equal Returned
             (Hnatural (DImage sampleBackground) eq_refl eq_refl)).
Defined.

(** ** Failing acquisitions *)









(** ** Template storage *)

Lemma rejected_iff (payload : JsVal) :
  TemplateStore.rejected payload = negb (hasElementsArray payload).
Proof.
  unfold TemplateStore.rejected, hasElementsArray.
  destruct payload as [| |b|q|s|items|props|name]; simpl; try reflexivity.
  - now destruct b.
  - now destruct (Qeq_bool q 0).
  - now destruct (String.eqb s "").
  - destruct (lookupProp props "elements") as [| |b|q|s|items|ps|name];
      simpl; try reflexivity.
    + now destruct b.
    + now destruct (Qeq_bool q 0).
    + now destruct (String.eqb s "").
Qed.

(** C9. [put] answers a payload that is absent, or has no [elements]
    field that is a sequence, with the validation error and leaves the
    stored definition as it was; a payload whose [elements] is a sequence
    passes, whatever the sequence holds, and is stored once the file is
    written. So the stored definition is either the one before or a
    payload that passed. *)
Theorem put_validates_elements (rt : Runtime)
    (templateDefinition payload : JsVal) :
  (hasElementsArray payload = false ->
     TemplateStore.put rt templateDefinition payload
     = ((mkReply 400 (RError "Invalid template format"), []),
        templateDefinition))
  /\ (forall props items,
         payload = JObj props ->
         lookupProp props "elements" = JArr items ->
         TemplateStore.rejected payload = false
         /\ (writeFile rt (TemplateStore.templatePath rt) (JsonOf payload)
             = Returned tt ->
             TemplateStore.put rt templateDefinition payload
             = ((mkReply 200 (RSuccess "Template updated successfully"),
                 [(TemplateStore.templatePath rt, JsonOf payload)]),
                payload)))
  /\ (snd (TemplateStore.put rt templateDefinition payload)
      = templateDefinition
      \/ snd (TemplateStore.put rt templateDefinition payload) = payload
         /\ hasElementsArray payload = true)
  /\ (forall stored,
         TemplateStore.handler rt "PUT" templateDefinition stored payload
         = TemplateStore.put rt templateDefinition payload).
Proof.
  split; [|split; [|split]].
  - intros H. unfold TemplateStore.put. rewrite rejected_iff, H. reflexivity.
  - intros props items -> Hel.
    assert (Hr : TemplateStore.rejected (JObj props) = false).
    { rewrite rejected_iff. unfold hasElementsArray. now rewrite Hel. }
    split; [exact Hr|].
    intros Hw. unfold TemplateStore.put. now rewrite Hr, Hw.
  - unfold TemplateStore.put. rewrite rejected_iff.
    destruct (hasElementsArray payload); simpl; [|now left].
    destruct (writeFile rt (TemplateStore.templatePath rt) (JsonOf payload));
      simpl; [right | left]; auto.
  - intros stored. reflexivity.
Qed.

Lemma put_validates_elements_witness :
  TemplateStore.put sampleRuntime JNull (JObj [("elements", JStr "none")])
  = ((mkReply 400 (RError "Invalid template format"), []), JNull)
  /\ TemplateStore.put sampleRuntime JNull
       (JObj [("background", JNull);
              ("elements", JArr [JNum 7; JObj [("type", JStr "video")]])])
     = ((mkReply 200 (RSuccess "Template updated successfully"),
         [("/srv/templates/template.json",
           JsonOf
             (JObj [("background", JNull);
                    ("elements",
                     JArr [JNum 7; JObj [("type", JStr "video")]])]))]),
        JObj [("background", JNull);
              ("elements", JArr [JNum 7; JObj [("type", JStr "video")]])]).
Proof.
  split.
  - apply (proj1 (put_validates_elements sampleRuntime JNull
                    (JObj [("elements", JStr "none")]))).
    reflexivity.
  - apply (proj1 (proj2 (put_validates_elements sampleRuntime JNull
                           (JObj [("background", JNull);
                                  ("elements",
                                   JArr [JNum 7;
                                         JObj [("type", JStr "video")]])])))
             [("background", JNull);
              ("elements", JArr [JNum 7; JObj [("type", JStr "video")]])]
             [JNum 7; JObj [("type", JStr "video")]]);
      reflexivity.
Defined.

(** * Further properties *)

(** ** The resolver *)

(** The result of the resolver is the one string the rules allow. *)
Lemma resolve_unique (nts : Q -> string) (data : gmap string JsVal)
    (s out : string) :
  Resolves (tokenValue nts data) s out ->
  resolvePlaceholders nts (JStr s) data = JStr out.
Proof.
  intros H. simpl. f_equal.
  apply resolves_functional with (f := tokenValue nts data) (s := s);
    [|exact H].
  apply resolves_ext with (f := replacer nts data).
  - apply replacer_tokenValue.
  - unfold Regex.replaceAll. apply replaceLoop_resolves. lia.
Qed.

Lemma resolve_resolves (nts : Q -> string) (data : gmap string JsVal)
    (s : string) :
  exists out,
    resolvePlaceholders nts (JStr s) data = JStr out
    /\ Resolves (tokenValue nts data) s out.
Proof.
  eexists. split; [reflexivity|].
  apply resolves_ext with (f := replacer nts data).
  - apply replacer_tokenValue.
  - unfold Regex.replaceAll. apply replaceLoop_resolves. lia.
Qed.

Lemma tokenFree_tail (c : ascii) (s : string) :
  tokenFree (String c s) -> tokenFree s.
Proof.
  intros H pre suf id rest -> Htok.
  apply (H (String c pre) suf id rest); [reflexivity | exact Htok].
Qed.

Lemma resolves_tokenFree (f : string -> string) (s : string) :
  tokenFree s -> Resolves f s s.
Proof.
  induction s as [|c s IH]; intros H; [constructor|].
  apply Resolves_char.
  - intros id rest. apply (H "" (String c s) id rest). reflexivity.
  - apply IH. now apply tokenFree_tail with (c := c).
Qed.

(** X1. A string that holds no token is returned as it is, whatever the
    data: braces that do not close, braces around nothing or around two
    words stay in the text. *)
Theorem resolve_token_free_unchanged (nts : Q -> string)
    (data : gmap string JsVal) (s : string) :
  tokenFree s -> resolvePlaceholders nts (JStr s) data = JStr s.
Proof. intros H. apply resolve_unique. now apply resolves_tokenFree. Qed.

Lemma token_starts_with_brace (s id rest : string) :
  Token s id rest -> exists s', s = String "{" s'.
Proof. intros [ws1 i ws2 r _ _ _ _]. eexists. reflexivity. Qed.

Lemma braceFree_tokenFree (s : string) : braceFree s = true -> tokenFree s.
Proof.
  intros H pre suf id rest -> Htok.
  apply token_starts_with_brace in Htok as [s' ->].
  induction pre as [|c pre IH]; simpl in H.
  - discriminate.
  - apply andb_prop in H as [_ H]. now apply IH.
Qed.

Lemma resolve_token_free_unchanged_witness :
  resolvePlaceholders integerToString (JStr "{{ }} and {{a b}} and {{x")
    (<["a" := JStr "A"]> ∅)
  = JStr "{{ }} and {{a b}} and {{x".
Proof.
  apply (resolve_token_free_unchanged integerToString (<["a" := JStr "A"]> ∅)
           "{{ }} and {{a b}} and {{x").
  intros pre suf id rest Heq Htok.
  apply matchAt_token in Htok.
  assert (Hnone : forall t,
             (exists p, "{{ }} and {{a b}} and {{x" = p +:+ t) ->
             Regex.matchAt Regex.placeholderRegex t = None).
  { intros t [p Hp].
    repeat (destruct p as [|? p];
            [simpl in Hp; subst t; reflexivity
            | simpl in Hp; first [discriminate | injection Hp as _ Hp]]). }
  rewrite (Hnone suf) in Htok; [discriminate|]. now exists pre.
Defined.

(** X2. One pass: where the text starts with a token, the result is the
    value of the token's key (the string form of the body's own value,
    else of the member inherited under that name, else nothing) followed
    by the resolution of the text after the token, so the value put in is
    not read again for tokens; the whitespace around the identifier plays
    no part. *)
Theorem resolve_token_single_pass (nts : Q -> string)
    (data : gmap string JsVal) (ws1 id ws2 rest : string) :
  allChars Regex.isSpace ws1 = true ->
  allChars Regex.isWord id = true ->
  id <> "" ->
  allChars Regex.isSpace ws2 = true ->
  exists out,
    resolvePlaceholders nts (JStr rest) data = JStr out
    /\ resolvePlaceholders nts
         (JStr ("{{" +:+ ws1 +:+ id +:+ ws2 +:+ "}}" +:+ rest)) data
       = JStr (tokenValue nts data id +:+ out).
Proof.
  intros Hws1 Hid Hne Hws2.
  destruct (resolve_resolves nts data rest) as (out & Hout & Hres).
  exists out. split; [exact Hout|].
  apply resolve_unique.
  apply Resolves_token with (rest := rest); [|exact Hres].
  now constructor.
Qed.

Lemma resolve_token_single_pass_witness :
  exists out,
    resolvePlaceholders integerToString (JStr "{{b}}!")
      (<["a" := JStr "{{b}}"]> (<["b" := JStr "B"]> ∅)) = JStr out
    /\ resolvePlaceholders integerToString
         (JStr ("{{" +:+ " " +:+ "a" +:+ "  " +:+ "}}" +:+ "{{b}}!"))
         (<["a" := JStr "{{b}}"]> (<["b" := JStr "B"]> ∅))
       = JStr (tokenValue integerToString
                 (<["a" := JStr "{{b}}"]> (<["b" := JStr "B"]> ∅)) "a"
               +:+ out).
Proof.
  apply (resolve_token_single_pass integerToString
           (<["a" := JStr "{{b}}"]> (<["b" := JStr "B"]> ∅))
           " " "a" "  " "{{b}}!"); try reflexivity; discriminate.
Defined.

Example resolve_value_not_rescanned :
  resolvePlaceholders integerToString (JStr "{{ a }}{{b}}!")
    (<["a" := JStr "{{b}}"]> (<["b" := JStr "B"]> ∅))
  = JStr "{{b}}B!".
Proof. vm_compute. reflexivity. Qed.

Lemma resolves_literal_prefix (f : string -> string) (p s out : string) :
  braceFree p = true -> Resolves f s out -> Resolves f (p +:+ s) (p +:+ out).
Proof.
  intros Hp H. induction p as [|c p IH]; [exact H|].
  simpl in Hp. apply andb_prop in Hp as [Hc Hp].
  simpl. apply Resolves_char; [|now apply IH].
  intros id rest Htok. apply token_starts_with_brace in Htok as [s' Heq].
  injection Heq as -> _. discriminate.
Qed.

(** X3. Text without an opening brace in front of any string is copied
    and the string behind it is resolved as if it stood alone. *)
Theorem resolve_literal_prefix (nts : Q -> string)
    (data : gmap string JsVal) (p s : string) :
  braceFree p = true ->
  exists out,
    resolvePlaceholders nts (JStr s) data = JStr out
    /\ resolvePlaceholders nts (JStr (p +:+ s)) data = JStr (p +:+ out).
Proof.
  intros Hp.
  destruct (resolve_resolves nts data s) as (out & Hout & Hres).
  exists out. split; [exact Hout|].
  apply resolve_unique. now apply resolves_literal_prefix.
Qed.

Lemma resolve_literal_prefix_witness :
  exists out,
    resolvePlaceholders integerToString (JStr "{{ rank }}") (<["rank" := JNum 3]> ∅)
    = JStr out
    /\ resolvePlaceholders integerToString (JStr ("Rank #" +:+ "{{ rank }}"))
         (<["rank" := JNum 3]> ∅)
       = JStr ("Rank #" +:+ out).
Proof.
  apply (resolve_literal_prefix integerToString (<["rank" := JNum 3]> ∅)
           "Rank #" "{{ rank }}").
  reflexivity.
Defined.

Lemma resolve_same_values (nts : Q -> string)
    (data data' : gmap string JsVal) (value : JsVal) :
  (forall k, tokenValue nts data k = tokenValue nts data' k) ->
  resolvePlaceholders nts value data = resolvePlaceholders nts value data'.
Proof.
  intros Hsame. destruct value as [| |b|q|s|items|props|name]; try reflexivity.
  destruct (resolve_resolves nts data s) as (out & -> & Hres).
  symmetry. apply resolve_unique.
  now apply resolves_ext with (f := tokenValue nts data).
Qed.

(** What a text made of one token resolves to. *)
Lemma resolve_one_token (nts : Q -> string) (data : gmap string JsVal)
    (ws1 id ws2 : string) :
  allChars Regex.isSpace ws1 = true ->
  allChars Regex.isWord id = true ->
  id <> "" ->
  allChars Regex.isSpace ws2 = true ->
  resolvePlaceholders nts (JStr ("{{" +:+ ws1 +:+ id +:+ ws2 +:+ "}}")) data
  = JStr (tokenValue nts data id).
Proof.
  intros H1 H2 H3 H4.
  replace (tokenValue nts data id) with (tokenValue nts data id +:+ "")
    by apply append_empty_r.
  apply resolve_unique.
  apply Resolves_token with (rest := ""); [|constructor].
  change ("{{" +:+ ws1 +:+ id +:+ ws2 +:+ "}}")
    with ("{{" +:+ ws1 +:+ id +:+ ws2 +:+ "}}" +:+ "").
  now constructor.
Qed.

(** X4. A key bound to [null], to [undefined] or to the empty string
    resolves to nothing, also under a name every object inherits a member
    by: the binding hides the member. Under a name that is not inherited
    such a binding resolves every text like no binding at all; under an
    inherited name the two differ, the key without binding being replaced
    by the text of the member. *)
Theorem resolve_empty_value_like_absent (nts : Q -> string)
    (data : gmap string JsVal) (key : string) (v : JsVal) :
  v = JNull \/ v = JUndefined \/ v = JStr "" ->
  (allChars Regex.isWord key = true -> key <> "" ->
   resolvePlaceholders nts (JStr ("{{" +:+ key +:+ "}}")) (<[key := v]> data)
   = JStr "")
  /\ (isInheritedName key = false ->
      forall value,
        resolvePlaceholders nts value (<[key := v]> data)
        = resolvePlaceholders nts value (delete key data))
  /\ (isInheritedName key = true ->
      allChars Regex.isWord key = true -> key <> "" ->
      resolvePlaceholders nts (JStr ("{{" +:+ key +:+ "}}")) (delete key data)
      = JStr (toString nts (inherited key))
      /\ toString nts (inherited key) <> "").
Proof.
  intros Hv. split; [|split].
  - intros Hw Hne.
    rewrite (resolve_one_token nts (<[key := v]> data) "" key "")
      by (first [reflexivity | assumption]).
    unfold tokenValue. rewrite lookup_insert_eq.
    destruct Hv as [->|[->| ->]]; reflexivity.
  - intros Hown value. apply resolve_same_values. intros k.
    unfold tokenValue.
    destruct (decide (key = k)) as [<-|Hne].
    + rewrite lookup_insert_eq, lookup_delete_eq, Hown.
      destruct Hv as [->|[->| ->]]; reflexivity.
    + now rewrite lookup_insert_ne, lookup_delete_ne.
  - intros Hin Hw Hne. split; [|now apply inherited_text_nonempty].
    rewrite (resolve_one_token nts (delete key data) "" key "")
      by (first [reflexivity | assumption]).
    unfold tokenValue. now rewrite lookup_delete_eq, Hin.
Qed.

Lemma resolve_empty_value_like_absent_witness :
  resolvePlaceholders integerToString (JStr "Hello {{name}}, rank {{rank}}")
    (<["name" := JNull]> (<["rank" := JNum 2]> ∅))
  = resolvePlaceholders integerToString (JStr "Hello {{name}}, rank {{rank}}")
      (delete "name" (<["rank" := JNum 2]> ∅))
  /\ resolvePlaceholders integerToString (JStr "{{toString}}")
       (<["toString" := JNull]> (<["rank" := JNum 2]> ∅))
     = JStr ""
  /\ resolvePlaceholders integerToString (JStr "{{toString}}")
       (delete "toString" (<["rank" := JNum 2]> ∅))
     = JStr "function toString() { [native code] }".
Proof.
  assert (Hne : "toString" <> "") by discriminate.
  destruct (resolve_empty_value_like_absent integerToString
              (<["rank" := JNum 2]> ∅) "name" JNull
              (or_introl eq_refl)) as (_ & Hsame & _).
  destruct (resolve_empty_value_like_absent integerToString
              (<["rank" := JNum 2]> ∅) "toString" JNull
              (or_introl eq_refl)) as (Hhide & _ & Hshow).
  split; [exact (Hsame eq_refl _)|].
  split; [exact (Hhide eq_refl Hne)|].
  exact (proj1 (Hshow eq_refl eq_refl Hne)).
Defined.

(** ** Rounded rectangles *)

Local Open Scope Q_scope.

Lemma cornerRadius_le_half (w h radius : Q) :
  0 <= w -> 0 <= h -> cornerRadius w h radius <= Qmin w h / 2.
Proof.
  intros Hw Hh. unfold cornerRadius.
  assert (Hmin : 0 <= Qmin w h) by (apply Q.min_glb; assumption).
  apply Q.max_lub; [|apply Q.le_min_r].
  apply Qle_shift_div_l; [reflexivity | lra].
Qed.

Lemma cornerRadius_degenerate (w h radius : Q) :
  w <= 0 \/ h <= 0 -> cornerRadius w h radius = 0.
Proof.
  intros Hbox. unfold cornerRadius. apply Qmax_zero_nonpos.
  eapply Qle_trans; [apply Q.le_min_r|].
  assert (Hm : Qmin w h <= 0).
  { destruct Hbox as [Hw|Hh].
    - eapply Qle_trans; [apply Q.le_min_l | exact Hw].
    - eapply Qle_trans; [apply Q.le_min_r | exact Hh]. }
  assert (Hhalf : Qmin w h / 2 == Qmin w h * (1 # 2)) by (field; discriminate).
  rewrite Hhalf. generalize dependent (Qmin w h). intros m Hm. lra.
Qed.

(** X5. The corner radius is never below zero and, on a box of width and
    height not below zero, never above half the shorter side, so never
    above a side. A box with a width or a height of zero or less gets
    square corners whatever radius is asked for: the radius is [0] and
    [drawRoundedRect] builds the plain rectangle. *)
Theorem rounded_rect_corners_fit (ctx : Ctx) (x y w h radius : Q) :
  let r := cornerRadius w h radius in
  0 <= r
  /\ (0 <= w -> 0 <= h -> r <= Qmin w h / 2 /\ r <= w /\ r <= h)
  /\ (w <= 0 \/ h <= 0 ->
      r = 0
      /\ samePath (path (drawRoundedRect ctx x y w h radius))
           (plainRectangle x y w h)).
Proof.
  intros r. split; [|split].
  - unfold r, cornerRadius. apply Q.le_max_l.
  - intros Hw Hh.
    assert (Hm : r <= Qmin w h / 2) by now apply cornerRadius_le_half.
    assert (H0 : 0 <= Qmin w h) by (apply Q.min_glb; assumption).
    pose proof (Q.le_min_l w h) as Hl.
    pose proof (Q.le_min_r w h) as Hr.
    split; [exact Hm|].
    assert (Hhalf : Qmin w h / 2 == Qmin w h * (1 # 2))
      by (field; discriminate).
    rewrite Hhalf in Hm. clear Hhalf.
    generalize dependent (Qmin w h). intros m Hm H0 Hl Hr.
    split; lra.
  - intros Hbox. pose proof (cornerRadius_degenerate w h radius Hbox) as Hr.
    split; [exact Hr|].
    unfold drawRoundedRect. rewrite Hr.
    unfold samePath, plainRectangle. simpl.
    repeat (constructor; [simpl; repeat split; ring|]). constructor.
Qed.

Lemma rounded_rect_corners_fit_witness :
  (cornerRadius 100 40 999 <= Qmin 100 40 / 2
   /\ cornerRadius 100 40 999 <= 100 /\ cornerRadius 100 40 999 <= 40)
  /\ cornerRadius (-(100)) 40 999 = 0
  /\ samePath
       (path (drawRoundedRect (createCanvas 200 200) 10 20 (-(100)) 40 999))
       (plainRectangle 10 20 (-(100)) 40).
Proof.
  destruct (rounded_rect_corners_fit (createCanvas 200 200) 10 20 100 40 999)
    as (_ & Hfit & _).
  destruct (rounded_rect_corners_fit (createCanvas 200 200) 10 20 (-(100)) 40
              999) as (_ & _ & Hsquare).
  split.
  - apply Hfit; vm_compute; discriminate.
  - apply Hsquare. left. vm_compute. discriminate.
Defined.

(** X6. A larger requested radius never gives a smaller corner. *)
Theorem cornerRadius_monotone (w h r1 r2 : Q) :
  r1 <= r2 -> cornerRadius w h r1 <= cornerRadius w h r2.
Proof.
  intros H. unfold cornerRadius. rewrite !numOrElse_zero_eq.
  apply Q.max_le_compat_l. now apply Q.min_le_compat_r.
Qed.

Lemma cornerRadius_monotone_witness :
  cornerRadius 100 40 5 <= cornerRadius 100 40 12.
Proof.
  apply (cornerRadius_monotone 100 40 5 12). vm_compute. discriminate.
Defined.

Local Close Scope Q_scope.

(** ** The element pass, further *)

Lemma elementOps_clips (rt : Runtime) (base : list string)
    (data : gmap string JsVal) (e : Element) (op : PaintOp) :
  In op (elementOps rt base data [] e) ->
  clipsOf op = []
  \/ e_type e = Some "image" /\ e_clip e = Some "circle"
     /\ exists src x y w h, op = OpDrawImage src x y w h [circleOf e].
Proof.
  unfold elementOps.
  destruct (typeIs e "image") eqn:Hty.
  - apply typeIs_true in Hty. destruct (acquireImage rt base (fieldOrElse (e_name e) "image")
                (resolveString rt (optOr (e_source e) "") data))
      as [img|]; [|intros []].
    unfold imageOps. intros Hin. apply in_app_or in Hin as [Hin|Hin].
    + left. unfold ringDisc in Hin.
      destruct (e_border e) as [b|]; [|destruct Hin].
      destruct (clipIs e "circle" && truthyNum (border_width b)
                && truthyStr (border_color b)); [|destruct Hin].
      destruct Hin as [<-|[]]. reflexivity.
    + destruct Hin as [<-|[]]. unfold imageClips, clipIs.
      destruct (e_clip e) as [c|] eqn:Hc; [|left; reflexivity].
      destruct (String.eqb c "circle") eqn:Ec; [|left; reflexivity].
      apply String.eqb_eq in Ec as ->.
      right. split; [exact Hty|]. split; [reflexivity|].
      do 5 eexists. reflexivity.
  - destruct (typeIs e "rectangle").
    + intros [<-|[]]. left. reflexivity.
    + destruct (typeIs e "text"); [|intros []].
      intros [<-|[]]. left. reflexivity.
Qed.

Lemma elementOps_length (rt : Runtime) (base : list string)
    (data : gmap string JsVal) (cs : list Path) (e : Element) :
  (length (elementOps rt base data cs e) <= 2)%nat.
Proof.
  unfold elementOps.
  destruct (typeIs e "image").
  - destruct (acquireImage rt base (fieldOrElse (e_name e) "image")
                (resolveString rt (optOr (e_source e) "") data));
      [|simpl; lia].
    unfold imageOps, ringDisc. rewrite length_app. simpl.
    destruct (e_border e) as [b|]; [|simpl; lia].
    destruct (clipIs e "circle" && truthyNum (border_width b)
              && truthyStr (border_color b)); simpl; lia.
  - destruct (typeIs e "rectangle"); [simpl; lia|].
    destruct (typeIs e "text"); simpl; lia.
Qed.

Lemma flat_map_length_le {A B : Type} (f : A -> list B) (n : nat)
    (l : list A) :
  (forall a, length (f a) <= n)%nat ->
  (length (flat_map f l) <= n * length l)%nat.
Proof.
  intros H. induction l as [|a l IH]; simpl; [lia|].
  rewrite length_app. specialize (H a). lia.
Qed.

(** X7. Whatever the elements, a finished render has the size fixed
    before the first element, [bgImage.width || 1080] by
    [bgImage.height || 1080], and ends with the clipping region and the
    stack of saved states as they were at the start, empty. *)
Theorem render_keeps_surface_frame (rt : Runtime) (base : list string)
    (data : gmap string JsVal) (bgImage : Drawable) (es : list Element)
    (ctx : Ctx) :
  composite rt base data bgImage es = Returned ctx ->
  width ctx = (if (drawableWidth bgImage =? 0)%Z then 1080%Z
               else drawableWidth bgImage)
  /\ height ctx = (if (drawableHeight bgImage =? 0)%Z then 1080%Z
                   else drawableHeight bgImage)
  /\ clips ctx = []
  /\ saved ctx = [].
Proof.
  unfold composite. intros H.
  apply paintElements_ops in H as [_ (Hw & Hh & Hc & Hs)].
  rewrite Hw, Hh, Hc, Hs. repeat split.
Qed.

Lemma render_keeps_surface_frame_witness :
  exists ctx,
    composite sampleRuntime ["/srv"] ∅ (DImage sampleBackground)
      [imageElement "avatar" 10 10 100 80 "assets/photo.png"
         (Some "circle") None;
       textElement 5 5 "Hi" None] = Returned ctx
    /\ width ctx = 900%Z /\ height ctx = 900%Z
    /\ clips ctx = [] /\ saved ctx = [].
Proof.
  eexists. split; [reflexivity|].
  apply (render_keeps_surface_frame sampleRuntime ["/srv"] ∅
           (DImage sampleBackground)
           [imageElement "avatar" 10 10 100 80 "assets/photo.png"
              (Some "circle") None;
            textElement 5 5 "Hi" None]).
  reflexivity.
Defined.

(** Every image element of a finished render had its pixels acquired. *)
Lemma paintElements_acquired (rt : Runtime) (base : list string)
    (data : gmap string JsVal) (e : Element) (es : list Element)
    (ctx ctx' : Ctx) :
  paintElements rt base data es ctx = Returned ctx' ->
  In e es -> e_type e = Some "image" ->
  exists img,
    acquireImage rt base (fieldOrElse (e_name e) "image")
      (resolveString rt (optOr (e_source e) "") data) = Returned img.
Proof.
  intros Hdone Hin Hty.
  destruct (acquireImage rt base (fieldOrElse (e_name e) "image")
              (resolveString rt (optOr (e_source e) "") data))
    as [img|message] eqn:Hacq; [now exists img|].
  destruct (paintElements_thrown rt base data e es ctx message Hin Hty Hacq)
    as (m & Hm).
  congruence.
Qed.

Lemma elementOps_image (rt : Runtime) (base : list string)
    (data : gmap string JsVal) (cs : list Path) (e : Element) (img : Image) :
  e_type e = Some "image" ->
  acquireImage rt base (fieldOrElse (e_name e) "image")
    (resolveString rt (optOr (e_source e) "") data) = Returned img ->
  In (OpDrawImage (DImage img) (optOr (e_x e) 0%Q) (optOr (e_y e) 0%Q)
        (optOr (e_width e) 0%Q) (optOr (e_height e) 0%Q) (imageClips cs e))
     (elementOps rt base data cs e).
Proof.
  intros Hty Hacq. unfold elementOps. apply typeIs_true in Hty.
  rewrite Hty, Hacq. unfold imageOps. apply in_or_app. right. now left.
Qed.

(** X8. In a finished render the picture of every image element whose
    [clip] is [circle] is drawn under exactly one clip, the circle of the
    element, and so covers no point outside that circle; the picture of
    any other image element is drawn under no clip. Nothing else is
    clipped: not the background, not a border disc, not a rectangle or a
    text, whatever came before them, so the clip of one element never
    reaches the next. *)
Theorem circular_clip_confined (rt : Runtime) (base : list string)
    (data : gmap string JsVal)
    (inPath : Path -> Q * Q -> bool)
    (inGlyphs : JsVal -> string -> string -> Q * Q -> Q * Q -> bool)
    (bgImage : Drawable) (es : list Element) (ctx : Ctx) :
  composite rt base data bgImage es = Returned ctx ->
  (forall e,
      In e es -> e_type e = Some "image" ->
      exists img,
        acquireImage rt base (fieldOrElse (e_name e) "image")
          (resolveString rt (optOr (e_source e) "") data) = Returned img
        /\ (e_clip e = Some "circle" ->
            In (OpDrawImage (DImage img) (optOr (e_x e) 0%Q)
                  (optOr (e_y e) 0%Q) (optOr (e_width e) 0%Q)
                  (optOr (e_height e) 0%Q) [circleOf e]) (ops ctx)
            /\ forall p,
                 covers inPath inGlyphs
                   (OpDrawImage (DImage img) (optOr (e_x e) 0%Q)
                      (optOr (e_y e) 0%Q) (optOr (e_width e) 0%Q)
                      (optOr (e_height e) 0%Q) [circleOf e]) p = true ->
                 inPath (circleOf e) p = true)
        /\ (e_clip e <> Some "circle" ->
            In (OpDrawImage (DImage img) (optOr (e_x e) 0%Q)
                  (optOr (e_y e) 0%Q) (optOr (e_width e) 0%Q)
                  (optOr (e_height e) 0%Q) []) (ops ctx)))
  /\ (forall op,
         In op (ops ctx) ->
         clipsOf op = []
         \/ exists e src x y w h,
              In e es /\ e_type e = Some "image"
              /\ e_clip e = Some "circle"
              /\ op = OpDrawImage src x y w h [circleOf e]).
Proof.
  intros H. pose proof H as Hdone.
  apply composite_ops in H as (Hops & _ & _). split.
  - intros e Hin Hty.
    destruct (paintElements_acquired rt base data e es _ ctx Hdone Hin Hty)
      as [img Hacq].
    exists img. split; [exact Hacq|].
    pose proof (elementOps_image rt base data [] e img Hty Hacq) as Hop.
    assert (Hall : forall op,
               In op (elementOps rt base data [] e) -> In op (ops ctx)).
    { intros op Hi. rewrite Hops. right. apply in_flat_map. now exists e. }
    unfold imageClips, clipIs in Hop. split.
    + intros Hclip. rewrite Hclip in Hop. cbn in Hop. split.
      * apply Hall. exact Hop.
      * intros p Hp. simpl in Hp.
        apply andb_prop in Hp as [_ Hp]. apply andb_prop in Hp as [Hp _].
        exact Hp.
    + intros Hclip. apply Hall.
      destruct (e_clip e) as [c|]; [|exact Hop].
      assert (Hne : String.eqb c "circle" = false)
        by (apply String.eqb_neq; congruence).
      now rewrite Hne in Hop.
  - intros op Hin. rewrite Hops in Hin.
    destruct Hin as [<-|Hin]; [left; reflexivity|].
    apply in_flat_map in Hin as (e & He & Hin).
    apply elementOps_clips in Hin
      as [Hc|(Hty & Hc & src & x & y & w & h & ->)]; [now left|].
    right. exists e, src, x, y, w, h. repeat split; auto.
Qed.

Lemma circular_clip_confined_witness :
  exists ctx,
    composite sampleRuntime ["/srv"] ∅ (DImage sampleBackground)
      [imageElement "avatar" 10 10 100 80 "assets/photo.png"
         (Some "circle") None;
       rectangleElement 0 0 50 50 0 "#112233"] = Returned ctx
    /\ In (OpDrawImage (DImage samplePhoto) 10 10 100 80
             [circleOf (imageElement "avatar" 10 10 100 80
                          "assets/photo.png" (Some "circle") None)])
         (ops ctx)
    /\ forall p,
         covers boxRasterizer noGlyphs
           (OpDrawImage (DImage samplePhoto) 10 10 100 80
              [circleOf (imageElement "avatar" 10 10 100 80
                           "assets/photo.png" (Some "circle") None)]) p
         = true ->
         boxRasterizer
           (circleOf (imageElement "avatar" 10 10 100 80 "assets/photo.png"
                        (Some "circle") None)) p = true.
Proof.
  assert (H : exists ctx,
             composite sampleRuntime ["/srv"] ∅ (DImage sampleBackground)
               [imageElement "avatar" 10 10 100 80 "assets/photo.png"
                  (Some "circle") None;
                rectangleElement 0 0 50 50 0 "#112233"] = Returned ctx)
    by (eexists; reflexivity).
  destruct H as [ctx Hc]. exists ctx. split; [exact Hc|].
  destruct (circular_clip_confined sampleRuntime ["/srv"] ∅ boxRasterizer
              noGlyphs (DImage sampleBackground) _ ctx Hc) as [Himages _].
  destruct (Himages (imageElement "avatar" 10 10 100 80 "assets/photo.png"
                       (Some "circle") None) (or_introl eq_refl) eq_refl)
    as (img & Hacq & Hcircle & _).
  injection Hacq as <-.
  exact (Hcircle eq_refl).
Defined.

(** X9. A finished render holds at most one paint operation for the
    background and two for each element. *)
Theorem render_operation_count (rt : Runtime) (base : list string)
    (data : gmap string JsVal) (bgImage : Drawable) (es : list Element)
    (ctx : Ctx) :
  composite rt base data bgImage es = Returned ctx ->
  (1 <= length (ops ctx) <= 1 + 2 * length es)%nat.
Proof.
  intros H. apply composite_ops in H as (-> & _ & _).
  simpl.
  pose proof (flat_map_length_le (elementOps rt base data []) 2 es
                (elementOps_length rt base data [])).
  lia.
Qed.

Lemma render_operation_count_witness :
  exists ctx,
    composite sampleRuntime ["/srv"] ∅ (DImage sampleBackground)
      [rectangleElement 0 0 50 50 0 "#112233"; noElement] = Returned ctx
    /\ (1 <= length (ops ctx) <= 1 + 2 * 2)%nat.
Proof.
  eexists. split; [reflexivity|].
  apply (render_operation_count sampleRuntime ["/srv"] ∅
           (DImage sampleBackground)
           [rectangleElement 0 0 50 50 0 "#112233"; noElement]).
  reflexivity.
Defined.

(** X24. Elements added at the end of a template only paint on top: if
    the longer template renders, so does the shorter, and the longer
    render holds the operations of the shorter one, unchanged and in front
    of the others; if the shorter fails, the longer fails with the same
    error. *)
Theorem appended_elements_paint_on_top (rt : Runtime) (base : list string)
    (data : gmap string JsVal) (bgImage : Drawable)
    (es1 es2 : list Element) :
  (forall ctx,
      composite rt base data bgImage (es1 ++ es2) = Returned ctx ->
      exists ctx1,
        composite rt base data bgImage es1 = Returned ctx1
        /\ ops ctx = ops ctx1 ++ flat_map (elementOps rt base data []) es2)
  /\ (forall message,
         composite rt base data bgImage es1 = Thrown message ->
         composite rt base data bgImage (es1 ++ es2) = Thrown message).
Proof.
  unfold composite. split.
  - intros ctx H. rewrite paintElements_app in H.
    destruct (paintElements rt base data es1 (paintBackground bgImage))
      as [ctx1|] eqn:H1; [|discriminate].
    exists ctx1. split; [reflexivity|].
    simpl in H. apply paintElements_ops in H as [Hops _].
    apply paintElements_ops in H1 as [_ (_ & _ & Hc & _)].
    rewrite Hops, Hc. reflexivity.
  - intros message H. now rewrite paintElements_app, H.
Qed.

Lemma appended_elements_paint_on_top_witness :
  composite sampleRuntime ["/srv"] ∅ (DImage sampleBackground)
    ([avatarElement] ++ [rectangleElement 0 0 50 50 0 "#112233"])
  = Thrown "Unsupported image type".
Proof.
  apply (proj2 (appended_elements_paint_on_top sampleRuntime ["/srv"] ∅
                  (DImage sampleBackground) [avatarElement]
                  [rectangleElement 0 0 50 50 0 "#112233"])).
  reflexivity.
Defined.





(** X11. The border of an image is painted only under a circular clip:
    with any other [clip], with no border, with a border width of zero or
    none, or with no border colour, an image element whose pixels are there
    paints exactly one operation, its [drawImage]. *)
Theorem border_needs_circle_width_and_color (rt : Runtime)
    (base : list string) (data : gmap string JsVal) (e : Element)
    (ctx : Ctx) (img : Image) :
  e_type e = Some "image" ->
  acquireImage rt base (fieldOrElse (e_name e) "image")
    (resolveString rt (optOr (e_source e) "") data) = Returned img ->
  e_clip e <> Some "circle"
  \/ e_border e = None
  \/ (exists b, e_border e = Some b
                /\ (truthyNum (border_width b) = false
                    \/ truthyStr (border_color b) = false)) ->
  exists ctx',
    paintElement rt base data e ctx = Returned ctx'
    /\ ops ctx'
       = ops ctx
         ++ [OpDrawImage (DImage img) (optOr (e_x e) 0%Q)
               (optOr (e_y e) 0%Q) (optOr (e_width e) 0%Q)
               (optOr (e_height e) 0%Q) (imageClips (clips ctx) e)]
    /\ (e_clip e <> Some "circle" -> imageClips (clips ctx) e = clips ctx).
Proof.
  intros Hty Hacq Hno.
  destruct (paintImage_ops rt base data e ctx img Hacq)
    as (ctx' & Hp & Hops & _).
  exists ctx'. split; [|split].
  - unfold paintElement. apply typeIs_true in Hty. now rewrite Hty.
  - rewrite Hops. f_equal. unfold imageOps.
    assert (Hring : ringDisc rt data (clips ctx) e = []).
    { unfold ringDisc. destruct Hno as [Hc|[Hb|(b & Hb & Hf)]].
      - destruct (e_border e) as [b|]; [|reflexivity].
        assert (Hcl : clipIs e "circle" = false).
        { unfold clipIs. destruct (e_clip e) as [c|]; [|reflexivity].
          apply String.eqb_neq. congruence. }
        now rewrite Hcl.
      - now rewrite Hb.
      - rewrite Hb. destruct Hf as [Hf|Hf]; rewrite Hf.
        + now rewrite andb_false_r.
        + now rewrite andb_false_r. }
    now rewrite Hring.
  - intros Hc. unfold imageClips, clipIs.
    destruct (e_clip e) as [c|]; [|reflexivity].
    assert (Hne : String.eqb c "circle" = false)
      by (apply String.eqb_neq; congruence).
    now rewrite Hne.
Qed.

Lemma border_needs_circle_width_and_color_witness :
  exists ctx',
    paintElement sampleRuntime ["/srv"] ∅
      (imageElement "avatar" 10 10 100 80 "assets/photo.png" (Some "none")
         (Some (mkBorder (Some 8%Q) (Some "#FFD700"))))
      (createCanvas 900 900) = Returned ctx'
    /\ ops ctx' = [OpDrawImage (DImage samplePhoto) 10 10 100 80 []].
Proof.
  destruct (border_needs_circle_width_and_color sampleRuntime ["/srv"] ∅
              (imageElement "avatar" 10 10 100 80 "assets/photo.png"
                 (Some "none")
                 (Some (mkBorder (Some 8%Q) (Some "#FFD700"))))
              (createCanvas 900 900) samplePhoto eq_refl eq_refl)
    as (ctx' & Hp & Hops & _).
  - left. discriminate.
  - exists ctx'. split; [exact Hp | exact Hops].
Defined.

Lemma aligned_in_set (a : string) :
  existsb (String.eqb a) ["left"; "right"; "center"] = true ->
  a = "left" \/ a = "right" \/ a = "center".
Proof.
  simpl. intros H.
  destruct (String.eqb a "left") eqn:E1;
    [apply String.eqb_eq in E1; auto|].
  destruct (String.eqb a "right") eqn:E2;
    [apply String.eqb_eq in E2; auto|].
  destruct (String.eqb a "center") eqn:E3;
    [apply String.eqb_eq in E3; auto|].
  discriminate.
Qed.

(** X12. After a text element the alignment of the context is one of
    [left], [right] and [center], whatever [align] holds; upper and lower
    case make no difference to what is painted. *)
Theorem text_align_valid_and_caseless (rt : Runtime) (base : list string)
    (data : gmap string JsVal) (e : Element) (ctx : Ctx) :
  e_type e = Some "text" ->
  (exists ctx',
      paintElement rt base data e ctx = Returned ctx'
      /\ (textAlign ctx' = "left" \/ textAlign ctx' = "right"
          \/ textAlign ctx' = "center"))
  /\ (forall a a',
         a <> "" -> a' <> "" -> toLowerCase a = toLowerCase a' ->
         paintElement rt base data (withAlign e (Some a)) ctx
         = paintElement rt base data (withAlign e (Some a')) ctx).
Proof.
  intros Hty.
  assert (Hi : typeIs e "image" = false)
    by (apply typeIs_false; rewrite Hty; discriminate).
  assert (Hr : typeIs e "rectangle" = false)
    by (apply typeIs_false; rewrite Hty; discriminate).
  apply typeIs_true in Hty.
  split.
  - eexists. split.
    + unfold paintElement. rewrite Hi, Hr, Hty. reflexivity.
    + change (textAlign _) with (textAlignOf e). unfold textAlignOf.
      destruct (existsb
                  (String.eqb (toLowerCase (fieldOrElse (e_align e) "left")))
                  ["left"; "right"; "center"]) eqn:E.
      * now apply aligned_in_set.
      * now left.
  - intros a a' Ha Ha' Hlow.
    unfold paintElement, typeIs in *. simpl. rewrite Hi, Hr, Hty.
    unfold paintText. simpl. unfold strOrElse.
    apply String.eqb_neq in Ha, Ha'. rewrite Ha, Ha', Hlow. reflexivity.
Qed.

Lemma text_align_valid_and_caseless_witness :
  paintElement sampleRuntime ["/srv"] ∅
    (withAlign (textElement 5 5 "Hi" None) (Some "CENTER"))
    (createCanvas 900 900)
  = paintElement sampleRuntime ["/srv"] ∅
      (withAlign (textElement 5 5 "Hi" None) (Some "Center"))
      (createCanvas 900 900).
Proof.
  apply (text_align_valid_and_caseless sampleRuntime ["/srv"] ∅
           (textElement 5 5 "Hi" None) (createCanvas 900 900) eq_refl);
    [discriminate | discriminate | reflexivity].
Defined.

Lemma resolveString_braceFree (rt : Runtime) (data : gmap string JsVal)
    (s : string) :
  braceFree s = true -> resolveString rt s data = s.
Proof.
  intros H.
  assert (E : resolvePlaceholders (numberToString rt) (JStr s) data = JStr s).
  { apply resolve_unique. apply resolves_tokenFree.
    now apply braceFree_tokenFree. }
  rewrite resolvePlaceholders_string in E. now injection E.
Qed.

Lemma paintElement_data_free (rt : Runtime) (base : list string)
    (data data' : gmap string JsVal) (e : Element) (ctx : Ctx) :
  placeholderFree e ->
  paintElement rt base data e ctx = paintElement rt base data' e ctx.
Proof.
  intros (Hs & Hc & Ht & Hf & Hb).
  unfold paintElement, paintImage, paintRectangle, paintText.
  rewrite !(resolveString_braceFree rt data _ Hs),
    !(resolveString_braceFree rt data' _ Hs),
    !(resolveString_braceFree rt data _ Hc),
    !(resolveString_braceFree rt data' _ Hc),
    !(resolveString_braceFree rt data _ Ht),
    !(resolveString_braceFree rt data' _ Ht),
    !(resolveString_braceFree rt data _ Hf),
    !(resolveString_braceFree rt data' _ Hf).
  destruct (e_border e) as [b|]; [|reflexivity].
  now rewrite !(resolveString_braceFree rt data _ Hb),
    !(resolveString_braceFree rt data' _ Hb).
Qed.

Lemma paintElements_data_free (rt : Runtime) (base : list string)
    (data data' : gmap string JsVal) (es : list Element) (ctx : Ctx) :
  Forall placeholderFree es ->
  paintElements rt base data es ctx = paintElements rt base data' es ctx.
Proof.
  intros H. revert ctx. induction H as [|e es He _ IH]; intros ctx;
    [reflexivity|].
  simpl. rewrite (paintElement_data_free rt base data data' e ctx He).
  destruct (paintElement rt base data' e ctx); simpl; auto.
Qed.

(** X13. The request data is used for substitution only: a template
    none of whose strings holds an opening brace renders the same for
    every body, in both handlers. *)
Theorem render_without_placeholders_ignores_data (rt : Runtime)
    (data data' : gmap string JsVal) (bg : option string)
    (es : list Element) :
  braceFree (optOr bg "") = true ->
  Forall placeholderFree es ->
  Server.render rt (Some (mkTemplate bg es)) data
  = Server.render rt (Some (mkTemplate bg es)) data'
  /\ (forall method stored,
         Api.handler rt data method (Some (mkTemplate bg es)) stored
         = Api.handler rt data' method (Some (mkTemplate bg es)) stored).
Proof.
  intros Hbg Hes.
  assert (Htb : forall base,
             templateBackground rt base data (Some (mkTemplate bg es))
             = templateBackground rt base data' (Some (mkTemplate bg es))).
  { intros base. unfold templateBackground. cbn [background].
    now rewrite (resolveString_braceFree rt data _ Hbg),
      (resolveString_braceFree rt data' _ Hbg). }
  assert (Hcomp : forall base bgImage,
             composite rt base data bgImage es
             = composite rt base data' bgImage es).
  { intros. unfold composite. now apply paintElements_data_free. }
  split.
  - unfold Server.render, Server.renderSurface, Server.loadBackground.
    rewrite Htb. cbn [elements].
    destruct (templateBackground rt [cwd rt] data' (Some (mkTemplate bg es)));
      [|destruct (loadImage rt (FromPath (fallbackBg rt)))];
      cbn [bind]; rewrite ?Hcomp; reflexivity.
  - intros method stored.
    unfold Api.handler, Api.renderSurface, Api.loadBackground.
    rewrite Htb. cbn [elements]. now rewrite Hcomp.
Qed.

Lemma render_without_placeholders_ignores_data_witness :
  Server.render sampleRuntime
    (Some (mkTemplate (Some "assets/background.png")
             [rectangleElement 0 0 50 50 0 "#112233";
              textElement 5 5 "Well done" None]))
    (<["name" := JStr "Ann"]> ∅)
  = Server.render sampleRuntime
      (Some (mkTemplate (Some "assets/background.png")
               [rectangleElement 0 0 50 50 0 "#112233";
                textElement 5 5 "Well done" None]))
      ∅.
Proof.
  apply (render_without_placeholders_ignores_data sampleRuntime
           (<["name" := JStr "Ann"]> ∅) ∅ (Some "assets/background.png")
           [rectangleElement 0 0 50 50 0 "#112233";
            textElement 5 5 "Well done" None]).
  - reflexivity.
  - repeat constructor.
Defined.

(** ** Replies *)

(** X14. [POST /render] of src/server.js answers 200 exactly when it has
    written one file, the PNG of the finished surface, under the public
    directory, and the URL in the answer ends with the name of that file;
    every other answer is a 500 and no file is written. *)
Theorem server_reply_matches_file (rt : Runtime)
    (templateDefinition : option Template) (data : gmap string JsVal) :
  (exists surface,
      Server.renderSurface rt templateDefinition data = Returned surface
      /\ Server.render rt templateDefinition data
         = (mkReply 200
              (RUrl ("https://ranking-celebration-image-render-api.onrender.com/i/"
                     +:+ randomUUID rt 1 +:+ ".png")),
            [(join rt [Server.publicDir rt; randomUUID rt 1 +:+ ".png"],
              PngOf surface)]))
  \/ (exists error,
         Server.render rt templateDefinition data
         = (mkReply 500 (RError error), [])).
Proof.
  unfold Server.render.
  destruct (Server.renderSurface rt templateDefinition data) as [surface|];
    [|right; eexists; reflexivity].
  destruct (writeFile rt
              (join rt [Server.publicDir rt; randomUUID rt 1 +:+ ".png"])
              (PngOf surface)) eqn:Hw.
  - left. exists surface. split; reflexivity.
  - right. eexists. reflexivity.
Qed.

(** X15. The handler of src/api/render.js never writes a file; it
    answers 200 with an image to [POST] only, 405 to every method other
    than [POST] and [OPTIONS], without looking at the template. *)
Theorem api_handler_replies (rt : Runtime) (data : gmap string JsVal)
    (method : string) (loaded stored : option Template) :
  snd (Api.handler rt data method loaded stored) = []
  /\ (forall png,
         fst (Api.handler rt data method loaded stored)
         = mkReply 200 (RImage png) -> method = "POST")
  /\ (method <> "POST" -> method <> "OPTIONS" ->
      Api.handler rt data method loaded stored
      = (mkReply 405 (RError "Method not allowed"), [])).
Proof.
  unfold Api.handler.
  destruct (String.eqb method "OPTIONS") eqn:Eo.
  - apply String.eqb_eq in Eo. repeat split; try discriminate.
    intros _ H. congruence.
  - destruct (String.eqb method "POST") eqn:Ep; simpl.
    + apply String.eqb_eq in Ep. split; [|split; [auto | congruence]].
      destruct (match loaded with Some t => Some t | None => stored end)
        as [t|]; [|reflexivity].
      destruct (Api.renderSurface rt data t); reflexivity.
    + repeat split; discriminate.
Qed.

Lemma api_handler_replies_witness :
  Api.handler sampleRuntime ∅ "DELETE" None None
  = (mkReply 405 (RError "Method not allowed"), []).
Proof.
  apply (api_handler_replies sampleRuntime ∅ "DELETE" None None);
    discriminate.
Defined.

(** ** The template store, further *)

Lemma hasElementsArray_truthy (payload : JsVal) :
  hasElementsArray payload = true -> truthy payload = true.
Proof. destruct payload; simpl; congruence. Qed.

Lemma put_state (rt : Runtime) (templateDefinition payload : JsVal) :
  snd (TemplateStore.put rt templateDefinition payload)
  = if accepted rt payload then payload else templateDefinition.
Proof.
  unfold TemplateStore.put, accepted.
  destruct (TemplateStore.rejected payload); [reflexivity|]. simpl.
  destruct (writeFile rt (TemplateStore.templatePath rt) (JsonOf payload));
    reflexivity.
Qed.

Lemma accepted_hasElementsArray (rt : Runtime) (payload : JsVal) :
  accepted rt payload = true -> hasElementsArray payload = true.
Proof.
  unfold accepted. rewrite rejected_iff, negb_involutive.
  intros H. now apply andb_prop in H as [H _].
Qed.

(** X16. Round trip: after a [PUT] that answers 200, [GET] answers with
    the payload just put; after any other answer of [PUT], [GET] answers
    what it answered before. *)
Theorem put_then_get (rt : Runtime) (templateDefinition payload : JsVal) :
  (forall message,
      fst (fst (TemplateStore.put rt templateDefinition payload))
      = mkReply 200 (RSuccess message) ->
      TemplateStore.get
        (snd (TemplateStore.put rt templateDefinition payload))
      = mkReply 200 (RTemplate payload))
  /\ (status (fst (fst (TemplateStore.put rt templateDefinition payload)))
      <> 200%nat ->
      TemplateStore.get
        (snd (TemplateStore.put rt templateDefinition payload))
      = TemplateStore.get templateDefinition).
Proof.
  unfold TemplateStore.put. rewrite rejected_iff.
  destruct (hasElementsArray payload) eqn:Hp; simpl.
  - destruct (writeFile rt (TemplateStore.templatePath rt) (JsonOf payload));
      simpl; split; try discriminate; try congruence.
    intros _ _. unfold TemplateStore.get.
    now rewrite (hasElementsArray_truthy payload Hp).
  - split; [discriminate | reflexivity].
Qed.

Lemma put_then_get_witness :
  TemplateStore.get
    (snd (TemplateStore.put sampleRuntime JNull
            (JObj [("elements", JArr [])])))
  = mkReply 200 (RTemplate (JObj [("elements", JArr [])]))
  /\ TemplateStore.get
       (snd (TemplateStore.put sampleRuntime JNull (JArr [])))
     = TemplateStore.get JNull.
Proof.
  split.
  - apply (proj1 (put_then_get sampleRuntime JNull
                    (JObj [("elements", JArr [])]))
             "Template updated successfully").
    reflexivity.
  - apply (proj2 (put_then_get sampleRuntime JNull (JArr []))).
    discriminate.
Defined.

Lemma handler_wellShaped (rt : Runtime) (method : string)
    (templateDefinition stored body : JsVal) :
  wellShaped stored -> wellShaped templateDefinition ->
  wellShaped
    (snd (TemplateStore.handler rt method templateDefinition stored body)).
Proof.
  intros Hs Ht. unfold TemplateStore.handler.
  destruct (String.eqb method "OPTIONS"); [exact Ht|].
  destruct (String.eqb method "GET").
  - simpl. destruct (truthy templateDefinition); simpl; assumption.
  - destruct (String.eqb method "PUT"); [|exact Ht].
    rewrite put_state. destruct (accepted rt body) eqn:Ha; [|exact Ht].
    right. now apply accepted_hasElementsArray in Ha.
Qed.

(** X17. Invariant of src/api/template.js: when the template file and
    the stored definition are each [null] or an object whose [elements] is
    a sequence, the stored definition is so after every run of requests,
    whatever their methods and bodies. *)
Theorem store_stays_well_shaped (rt : Runtime)
    (stored templateDefinition : JsVal) (requests : list (string * JsVal)) :
  wellShaped stored -> wellShaped templateDefinition ->
  wellShaped (serveAll rt stored templateDefinition requests).
Proof.
  intros Hs. revert templateDefinition.
  induction requests as [|[method body] requests IH];
    intros templateDefinition Ht; [exact Ht|].
  simpl. apply IH. now apply handler_wellShaped.
Qed.

Lemma store_stays_well_shaped_witness :
  wellShaped
    (serveAll sampleRuntime (JObj [("elements", JArr [])]) JNull
       [("PUT", JStr "oops"); ("GET", JUndefined);
        ("PUT", JObj [("elements", JArr [JNull])]); ("DELETE", JNull)]).
Proof.
  apply (store_stays_well_shaped sampleRuntime (JObj [("elements", JArr [])])
           JNull).
  - right. reflexivity.
  - left. reflexivity.
Defined.

Lemma last_cons_default {A : Type} (a d : A) (l : list A) :
  List.last (a :: l) d = List.last l a.
Proof.
  revert a d. induction l as [|b l IH]; intros a d; [reflexivity|].
  change (List.last (a :: b :: l) d) with (List.last (b :: l) d).
  now rewrite !IH.
Qed.

(** X18. After a run of [PUT] requests the stored definition is the last
    payload that was taken in, that is, passed the check and had its file
    written; it is the definition from before the run when none was. *)
Theorem last_accepted_put_wins (rt : Runtime) (templateDefinition : JsVal)
    (payloads : list JsVal) :
  putAll rt templateDefinition payloads
  = List.last (List.filter (accepted rt) payloads) templateDefinition.
Proof.
  revert templateDefinition.
  induction payloads as [|p payloads IH]; intros templateDefinition;
    [reflexivity|].
  unfold putAll in *. cbn [fold_left]. rewrite IH, put_state.
  cbn [List.filter]. destruct (accepted rt p); [|reflexivity].
  now rewrite last_cons_default.
Qed.

(** ** The placeholder debugger *)









(** ** The first server *)

(** X21. In the first server the [font] of a text element is never
    read: an element paints the same whatever its [font], and after a text
    element the font of the context is the size followed by
    [px DB-Admin-X]. *)
Theorem legacy_ignores_font (rt : Runtime) (data : gmap string JsVal)
    (e : Element) (ctx : Ctx) :
  (forall f,
      Legacy.paintElement rt data (withFont e f) ctx
      = Legacy.paintElement rt data e ctx)
  /\ (e_type e = Some "text" ->
      exists ctx',
        Legacy.paintElement rt data e ctx = Returned ctx'
        /\ font ctx'
           = numberToString rt (optOr (e_fontSize e) 24%Q)
             +:+ "px DB-Admin-X").
Proof.
  split.
  - intros f. reflexivity.
  - intros Hty.
    assert (Hi : typeIs e "image" = false)
      by (apply typeIs_false; rewrite Hty; discriminate).
    assert (Hr : typeIs e "rectangle" = false)
      by (apply typeIs_false; rewrite Hty; discriminate).
    apply typeIs_true in Hty.
    eexists. unfold Legacy.paintElement. rewrite Hi, Hr, Hty.
    split; reflexivity.
Qed.

Lemma legacy_ignores_font_witness :
  exists ctx',
    Legacy.paintElement sampleRuntime ∅
      (textElement 5 5 "Hi" (Some "Arial")) (createCanvas 900 900)
    = Returned ctx'
    /\ font ctx' = "24px DB-Admin-X".
Proof.
  apply (legacy_ignores_font sampleRuntime ∅
           (textElement 5 5 "Hi" (Some "Arial")) (createCanvas 900 900)).
  reflexivity.
Defined.

Lemma legacy_acquire_returned (rt : Runtime) (name source : string)
    (img : Image) :
  Legacy.acquireImage rt source = Returned img
  <-> acquireImage rt [cwd rt] name source = Returned img.
Proof.
  unfold Legacy.acquireImage, acquireImage.
  destruct (startsWith source "http://" || startsWith source "https://");
    [|reflexivity].
  destruct (fetch rt source) as [resp|]; simpl; [|split; discriminate].
  destruct (resp_ok resp); simpl; [reflexivity | split; discriminate].
Qed.

Lemma legacy_paintElement_returned (rt : Runtime)
    (data : gmap string JsVal) (e : Element) (ctx c : Ctx) :
  e_type e <> Some "text" ->
  Legacy.paintElement rt data e ctx = Returned c
  <-> paintElement rt [cwd rt] data e ctx = Returned c.
Proof.
  intros Ht. apply typeIs_false in Ht.
  unfold Legacy.paintElement, paintElement. rewrite Ht.
  destruct (typeIs e "image"); [|reflexivity].
  unfold Legacy.paintImage, paintImage.
  pose proof (legacy_acquire_returned rt (fieldOrElse (e_name e) "image")
                (resolveString rt (optOr (e_source e) "") data)) as Hacq.
  destruct (Legacy.acquireImage rt
              (resolveString rt (optOr (e_source e) "") data))
    as [img|m] eqn:E1;
    destruct (acquireImage rt [cwd rt] (fieldOrElse (e_name e) "image")
                (resolveString rt (optOr (e_source e) "") data))
      as [img'|m'] eqn:E2; simpl.
  - assert (Heq : Returned img' = Returned img :> Outcome Image)
      by (now apply Hacq).
    injection Heq as ->. reflexivity.
  - assert (Heq : Thrown m' = Returned img :> Outcome Image) by (now apply Hacq).
    discriminate.
  - assert (Heq : Thrown m = Returned img' :> Outcome Image) by (now apply Hacq).
    discriminate.
  - split; discriminate.
Qed.

Lemma legacy_paintElements_returned (rt : Runtime)
    (data : gmap string JsVal) (es : list Element) (ctx c : Ctx) :
  Forall (fun e => e_type e <> Some "text") es ->
  Legacy.paintElements rt data es ctx = Returned c
  <-> paintElements rt [cwd rt] data es ctx = Returned c.
Proof.
  intros H. revert ctx. induction H as [|e es He _ IH]; intros ctx;
    [reflexivity|].
  simpl.
  pose proof (fun c1 => legacy_paintElement_returned rt data e ctx c1 He)
    as Hstep.
  destruct (Legacy.paintElement rt data e ctx) as [c1|m1] eqn:E1;
    destruct (paintElement rt [cwd rt] data e ctx) as [c2|m2] eqn:E2; simpl.
  - assert (Heq : Returned c2 = Returned c1 :> Outcome Ctx)
      by (now apply Hstep).
    injection Heq as ->. apply IH.
  - assert (Heq : Thrown m2 = Returned c1 :> Outcome Ctx) by (now apply Hstep).
    discriminate.
  - assert (Heq : Thrown m1 = Returned c2 :> Outcome Ctx) by (now apply Hstep).
    discriminate.
  - split; discriminate.
Qed.

(** X22. On a template without text elements the first server and the
    later one finish with the same surface, or both fail: the two passes
    differ in the font of text and in the wording of one error only. *)
Theorem legacy_agrees_without_text (rt : Runtime)
    (data : gmap string JsVal) (bg : option string) (es : list Element)
    (surface : Surface) :
  Forall (fun e => e_type e <> Some "text") es ->
  Legacy.renderSurface rt data (Some (mkTemplate bg es)) = Returned surface
  <-> Server.renderSurface rt (Some (mkTemplate bg es)) data
      = Returned surface.
Proof.
  intros H. unfold Legacy.renderSurface, Server.renderSurface, composite.
  destruct (Server.loadBackground rt (Some (mkTemplate bg es)) data)
    as [bgImage|]; cbn [bind elements]; [|split; discriminate].
  pose proof (fun c => legacy_paintElements_returned rt data es
                         (paintBackground bgImage) c H) as Hpass.
  destruct (Legacy.paintElements rt data es (paintBackground bgImage))
    as [c1|m1] eqn:E1;
    destruct (paintElements rt [cwd rt] data es (paintBackground bgImage))
      as [c2|m2] eqn:E2; cbn [bind].
  - assert (Heq : Returned c2 = Returned c1 :> Outcome Ctx) by (now apply Hpass).
    injection Heq as ->. reflexivity.
  - assert (Heq : Thrown m2 = Returned c1 :> Outcome Ctx) by (now apply Hpass).
    discriminate.
  - assert (Heq : Thrown m1 = Returned c2 :> Outcome Ctx) by (now apply Hpass).
    discriminate.
  - split; discriminate.
Qed.

Lemma legacy_agrees_without_text_witness :
  Legacy.renderSurface sampleRuntime ∅
    (Some (mkTemplate None
             [imageElement "avatar" 10 10 100 80 "assets/photo.png"
                (Some "circle") None;
              rectangleElement 0 0 50 50 0 "#112233"]))
  = Returned
      (mkSurface 900 900
         [OpDrawImage (DImage sampleBackground) 0 0 900 900 [];
          OpDrawImage (DImage samplePhoto) 10 10 100 80
            [circleOf (imageElement "avatar" 10 10 100 80 "assets/photo.png"
                         (Some "circle") None)];
          OpFill (roundedRectPath 0 0 50 50 0) (JStr "#112233") []]).
Proof.
  apply (legacy_agrees_without_text sampleRuntime ∅ None
           [imageElement "avatar" 10 10 100 80 "assets/photo.png"
              (Some "circle") None;
            rectangleElement 0 0 50 50 0 "#112233"]).
  - repeat constructor; discriminate.
  - reflexivity.
Defined.

(** ** The preview route *)

(** X23. [POST /preview] answers 400 and renders nothing when the
    template or the data is missing. With both, it reports a failed
    generation exactly when [POST /render] does on the same template and
    data, and whenever both write a file the two files hold the same
    picture. *)
Theorem preview_follows_render (rt : Runtime) (template : option Template)
    (data : option (gmap string JsVal)) :
  (template = None \/ data = None ->
   Preview.preview rt template data
   = (mkReply 400 (RError "Both template and data are required"), []))
  /\ (forall t d,
         template = Some t -> data = Some d ->
         (Preview.preview rt template data
          = (mkReply 500 (RError "Preview generation failed"), [])
          <-> Server.render rt (Some t) d
              = (mkReply 500 (RError "Image generation failed"), []))
         /\ (forall file file' content content',
                snd (Preview.preview rt template data) = [(file, content)] ->
                snd (Server.render rt (Some t) d) = [(file', content')] ->
                content = content')).
Proof.
  split.
  - intros [-> | ->]; [reflexivity|]. now destruct template.
  - intros t d -> ->. unfold Preview.preview, Server.render.
    destruct (Server.renderSurface rt (Some t) d) as [surface|message].
    + cbv zeta.
      destruct (writeFile rt
                  (join rt [Server.publicDir rt;
                            "preview-" +:+ randomUUID rt 1 +:+ ".png"])
                  (PngOf surface));
        destruct (writeFile rt
                    (join rt [Server.publicDir rt;
                              randomUUID rt 1 +:+ ".png"])
                    (PngOf surface));
        (split; [split; discriminate|]);
        intros file file' content content' H H'; simpl in H, H';
        congruence.
    + split; [split; reflexivity|].
      intros file file' content content' H. discriminate.
Qed.

Lemma preview_follows_render_witness :
  Preview.preview sampleRuntime None (Some ∅)
  = (mkReply 400 (RError "Both template and data are required"), [])
  /\ Preview.preview sampleRuntime (Some avatarTemplate) (Some ∅)
     = (mkReply 500 (RError "Preview generation failed"), []).
Proof.
  split.
  - apply (proj1 (preview_follows_render sampleRuntime None (Some ∅))).
    left. reflexivity.
  - apply (proj1 (proj2 (preview_follows_render sampleRuntime
                           (Some avatarTemplate) (Some ∅))
                    avatarTemplate ∅ eq_refl eq_refl)).
    reflexivity.
Defined.
